(** * CognitiveEnhance_FHE: the record store of the web client and the
      plan generation of the contract

    A shallow embedding of [src/frontend/web/src/App.tsx] (the functions
    [loadRecords], [submitRecord], [activateTraining], [completeTraining],
    [isOwner], the counters of the dashboard, the search filter and the
    footer of the detail dialog) and of the Solidity contract
    [CognitiveEnhanceFHE] (the functions [submitTestResults],
    [requestTrainingPlan], [generatePlan], [calculateTrainingIntensity],
    [getRecommendation], [updateProgress]).

    Modelling conventions.
    - A JavaScript string is a [string]: one [ascii] per character, so the
      characters are those up to U+00FF.  The bytes held by the contract are
      identified with the text they encode ([ethers.toUtf8Bytes] and
      [ethers.toUtf8String] are inverse on such text); byte strings that are
      not UTF-8 are outside the model.
    - A JavaScript number is an integer of [Z].  Every number the client
      computes is integer valued ([parseInt], [Math.floor]); the model is
      exact as long as the magnitude stays below 2^53, and has no
      [Infinity], which [parseInt] returns for a text that denotes more than
      the largest double.  JSON texts with a fraction or an exponent are
      outside the model and [JSON_parse] refuses them, as it refuses [\u]
      escapes above U+00FF.
    - [undefined] is [None] of an [option json].
    - The order in which an object lists its properties is the order in which
      they were first set (the reordering of integer-like property names is
      not modelled; no record has such names). *)

From Stdlib Require Import ZArith NArith Ascii String List Lia Bool.
From Stdlib Require Import Decimal DecimalString DecimalPos DecimalN DecimalFacts.
From Stdlib Require Import Sorting.Sorted Permutation.
From stdpp Require Import base option list strings gmap.

Local Open Scope Z_scope.

(* ===================================================================== *)
(** * The JavaScript platform                                              *)
(* ===================================================================== *)

Module JS.

(** ** Values produced by [JSON.parse] *)

#[local] Set Warnings "-register-all".

Inductive json : Type :=
  | JNull
  | JBool (b : bool)
  | JNum (n : Z)
  | JStr (s : string)
  | JArr (xs : list json)
  | JObj (fields : list (string * json)).

(** Characters that cannot be written inside a literal. *)
Definition dquote : ascii := "034"%char.
Definition backslash : ascii := "092"%char.

Definition code (c : ascii) : N := N_of_ascii c.

(** ** Numbers as text *)

(** [Number.prototype.toString] on an integer: decimal digits, a leading
    minus sign for negative numbers. *)
Definition number_to_string (z : Z) : string :=
  match z with
  | Z0 => "0"
  | Zpos p => NilEmpty.string_of_uint (Pos.to_uint p)
  | Zneg p => String "-" (NilEmpty.string_of_uint (Pos.to_uint p))
  end.

Definition digit_of (c : ascii) : option (uint -> uint) :=
  match c with
  | "0" => Some D0 | "1" => Some D1 | "2" => Some D2 | "3" => Some D3
  | "4" => Some D4 | "5" => Some D5 | "6" => Some D6 | "7" => Some D7
  | "8" => Some D8 | "9" => Some D9 | _ => None
  end%char.

(** The longest prefix of decimal digits, and what follows it. *)
Fixpoint read_digits (s : string) : uint * string :=
  match s with
  | EmptyString => (Nil, EmptyString)
  | String c r =>
      match digit_of c with
      | Some d => let (u, r') := read_digits r in (d u, r')
      | None => (Nil, s)
      end
  end.

(** ** Truthiness, property access, conversion to text *)

(** [ToBoolean], as used by [x || y]. *)
Definition truthy (v : option json) : bool :=
  match v with
  | None | Some JNull => false
  | Some (JBool b) => b
  | Some (JNum n) => negb (n =? 0)
  | Some (JStr s) => negb (String.eqb s "")
  | Some (JArr _) | Some (JObj _) => true
  end.

(** [x || y] where [y] is defined. *)
Definition or_else (v : option json) (d : json) : json :=
  match v with
  | Some x => if truthy v then x else d
  | None => d
  end.

Fixpoint assoc (k : string) (fields : list (string * json)) : option json :=
  match fields with
  | [] => None
  | (k', v) :: rest => if String.eqb k k' then Some v else assoc k rest
  end.

(** [o[k] = v]: an existing property keeps its place, a new one goes last. *)
Fixpoint obj_set (k : string) (v : json) (fields : list (string * json))
  : list (string * json) :=
  match fields with
  | [] => [(k, v)]
  | (k', v') :: rest =>
      if String.eqb k k' then (k', v) :: rest else (k', v') :: obj_set k v rest
  end.

(** The object [JSON.parse] builds from the members it read, in text order:
    of two members with one name the later value wins. *)
Definition obj_of_members (members : list (string * json)) : list (string * json) :=
  fold_left (fun o kv => obj_set (fst kv) (snd kv) o) members [].

(** [String(v)], the conversion a template literal applies. *)
Fixpoint to_string (v : json) : string :=
  match v with
  | JNull => "null"
  | JBool true => "true"
  | JBool false => "false"
  | JNum n => number_to_string n
  | JStr s => s
  | JArr xs =>
      (fix join (l : list json) : string :=
         match l with
         | [] => ""
         | [x] => match x with JNull => "" | _ => to_string x end
         | x :: rest =>
             (match x with JNull => "" | _ => to_string x end) +:+ "," +:+ join rest
         end) xs
  | JObj _ => "[object Object]"
  end.

(** ** [JSON.stringify] *)

Definition hex_digit (n : N) : ascii :=
  match n with
  | 0 => "0" | 1 => "1" | 2 => "2" | 3 => "3" | 4 => "4" | 5 => "5"
  | 6 => "6" | 7 => "7" | 8 => "8" | 9 => "9" | 10 => "a" | 11 => "b"
  | 12 => "c" | 13 => "d" | 14 => "e" | _ => "f"
  end%N%char.

(** [QuoteJSONString] on one character. *)
Definition escape_char (c : ascii) : string :=
  match code c with
  | 8 => "\b" | 9 => "\t" | 10 => "\n" | 12 => "\f" | 13 => "\r"
  | 34 => String backslash (String dquote "")
  | 92 => String backslash (String backslash "")
  | n => if (n <? 32)%N
         then "\u00" +:+ String (hex_digit (n / 16)) (String (hex_digit (n mod 16)) "")
         else String c ""
  end%N.

Fixpoint escape (s : string) : string :=
  match s with
  | EmptyString => ""
  | String c r => escape_char c +:+ escape r
  end.

Definition quote (s : string) : string :=
  String dquote (escape s +:+ String dquote "").

(** The items of an array or an object, separated by commas, up to the
    closing bracket. *)
Fixpoint join_with {A : Type} (close : string) (f : A -> string) (l : list A) : string :=
  match l with
  | [] => close
  | [x] => f x +:+ close
  | x :: rest => f x +:+ "," +:+ join_with close f rest
  end.

Fixpoint stringify (v : json) : string :=
  match v with
  | JNull => "null"
  | JBool true => "true"
  | JBool false => "false"
  | JNum n => number_to_string n
  | JStr s => quote s
  | JArr xs => String "[" (join_with "]" stringify xs)
  | JObj fields =>
      String "{"
        (join_with "}" (fun kv => quote (fst kv) +:+ String ":" (stringify (snd kv))) fields)
  end.

(** ** [JSON.parse] *)

Definition is_ws (c : ascii) : bool :=
  match c with
  | " " | "009" | "010" | "013" => true
  | _ => false
  end%char.

Fixpoint skip_ws (s : string) : string :=
  match s with
  | String c r => if is_ws c then skip_ws r else s
  | EmptyString => s
  end.

Definition hex_value (c : ascii) : option N :=
  let n := code c in
  (if (48 <=? n) && (n <=? 57) then Some (n - 48)          (* 0-9 *)
   else if (97 <=? n) && (n <=? 102) then Some (n - 87)    (* a-f *)
   else if (65 <=? n) && (n <=? 70) then Some (n - 55)     (* A-F *)
   else None)%N.

(** The character a [\uXXXX] escape denotes, when it is one of the model. *)
Definition unicode_escape (h1 h2 h3 h4 : ascii) : option ascii :=
  match hex_value h1, hex_value h2, hex_value h3, hex_value h4 with
  | Some 0%N, Some 0%N, Some a, Some b => Some (ascii_of_N (16 * a + b))
  | _, _, _, _ => None
  end.

Definition simple_escape (e : ascii) : option ascii :=
  match e with
  | "034" => Some dquote
  | "092" => Some backslash
  | "/" => Some "/"
  | "b" => Some "008"
  | "f" => Some "012"
  | "n" => Some "010"
  | "r" => Some "013"
  | "t" => Some "009"
  | _ => None
  end%char.

Definition cons_char (c : ascii) (r : option (string * string)) : option (string * string) :=
  match r with
  | Some (s, rest) => Some (String c s, rest)
  | None => None
  end.

(** The characters of a string literal after its opening quote, up to the
    closing quote; the second component is the text after that quote. *)
Fixpoint parse_string_body (s : string) : option (string * string) :=
  match s with
  | EmptyString => None
  | String c r =>
      if Ascii.eqb c dquote then Some (EmptyString, r)
      else if Ascii.eqb c backslash then
        match r with
        | String e r' =>
            if Ascii.eqb e "u" then
              match r' with
              | String h1 (String h2 (String h3 (String h4 r''))) =>
                  match unicode_escape h1 h2 h3 h4 with
                  | Some x => cons_char x (parse_string_body r'')
                  | None => None
                  end
              | _ => None
              end
            else
              match simple_escape e with
              | Some x => cons_char x (parse_string_body r')
              | None => None
              end
        | EmptyString => None
        end
      else if (code c <? 32)%N then None
      else cons_char c (parse_string_body r)
  end.

(** A JSON number of the integer fragment: [-]? (0 | [1-9][0-9]* ), not
    followed by a fraction or an exponent. *)
Definition no_fraction (r : string) : bool :=
  match r with
  | String c _ =>
      negb (Ascii.eqb c "." || Ascii.eqb c "e" || Ascii.eqb c "E")
  | EmptyString => true
  end.

Definition parse_unsigned (s : string) : option (N * string) :=
  match read_digits s with
  | (Nil, _) => None
  | (D0 Nil, r) => if no_fraction r then Some (0%N, r) else None
  | (D0 _, _) => None
  | (u, r) => if no_fraction r then Some (N.of_uint u, r) else None
  end.

Definition parse_number (s : string) : option (json * string) :=
  match s with
  | String c r =>
      if Ascii.eqb c "-" then
        match parse_unsigned r with
        | Some (n, r') => Some (JNum (- Z.of_N n), r')
        | None => None
        end
      else
        match parse_unsigned s with
        | Some (n, r') => Some (JNum (Z.of_N n), r')
        | None => None
        end
  | EmptyString => None
  end.

Fixpoint strip_prefix (lit s : string) : option string :=
  match lit with
  | EmptyString => Some s
  | String a lit' =>
      match s with
      | String b r => if Ascii.eqb a b then strip_prefix lit' r else None
      | EmptyString => None
      end
  end.

Definition expect (lit : string) (v : json) (s : string) : option (json * string) :=
  match strip_prefix lit s with
  | Some r => Some (v, r)
  | None => None
  end.

(** Whether the text starts, after white space, with the character [c];
    then the text after it. *)
Definition next_is (c : ascii) (s : string) : option string :=
  match skip_ws s with
  | String c' r => if Ascii.eqb c' c then Some r else None
  | EmptyString => None
  end.

Fixpoint parse_value (fuel : nat) (s : string) {struct fuel} : option (json * string) :=
  match fuel with
  | O => None
  | S fuel' =>
      match skip_ws s with
      | EmptyString => None
      | String c r =>
          if Ascii.eqb c "n" then expect "null" JNull (String c r)
          else if Ascii.eqb c "t" then expect "true" (JBool true) (String c r)
          else if Ascii.eqb c "f" then expect "false" (JBool false) (String c r)
          else if Ascii.eqb c dquote then
            match parse_string_body r with
            | Some (str, r') => Some (JStr str, r')
            | None => None
            end
          else if Ascii.eqb c "[" then
            match next_is "]" r with
            | Some r' => Some (JArr [], r')
            | None =>
                match parse_elements fuel' r with
                | Some (xs, r') => Some (JArr xs, r')
                | None => None
                end
            end
          else if Ascii.eqb c "{" then
            match next_is "}" r with
            | Some r' => Some (JObj [], r')
            | None =>
                match parse_members fuel' r with
                | Some (ms, r') => Some (JObj (obj_of_members ms), r')
                | None => None
                end
            end
          else parse_number (String c r)
      end
  end

with parse_elements (fuel : nat) (s : string) {struct fuel} : option (list json * string) :=
  match fuel with
  | O => None
  | S fuel' =>
      match parse_value fuel' s with
      | Some (x, r) =>
          match next_is "," r with
          | Some r' =>
              match parse_elements fuel' r' with
              | Some (xs, r'') => Some (x :: xs, r'')
              | None => None
              end
          | None =>
              match next_is "]" r with
              | Some r' => Some ([x], r')
              | None => None
              end
          end
      | None => None
      end
  end

with parse_members (fuel : nat) (s : string) {struct fuel}
  : option (list (string * json) * string) :=
  match fuel with
  | O => None
  | S fuel' =>
      match next_is dquote s with
      | Some r =>
          match parse_string_body r with
          | Some (k, r1) =>
              match next_is ":" r1 with
              | Some r2 =>
                  match parse_value fuel' r2 with
                  | Some (x, r3) =>
                      match next_is "," r3 with
                      | Some r4 =>
                          match parse_members fuel' r4 with
                          | Some (ms, r5) => Some ((k, x) :: ms, r5)
                          | None => None
                          end
                      | None =>
                          match next_is "}" r3 with
                          | Some r4 => Some ([(k, x)], r4)
                          | None => None
                          end
                      end
                  | None => None
                  end
              | None => None
              end
          | None => None
          end
      | None => None
      end
  end.

(** [JSON.parse(text)]: [None] stands for the [SyntaxError] it throws. *)
Definition JSON_parse (text : string) : option json :=
  match parse_value (S (String.length text)) text with
  | Some (v, r) => match skip_ws r with EmptyString => Some v | _ => None end
  | None => None
  end.


(** ** [parseInt] *)

(** White space that [parseInt] skips at the start of its argument. *)
Definition is_js_space (c : ascii) : bool :=
  match code c with
  | 9 | 10 | 11 | 12 | 13 | 32 | 160 => true
  | _ => false
  end%N.

Fixpoint trim_start (s : string) : string :=
  match s with
  | String c r => if is_js_space c then trim_start r else s
  | EmptyString => s
  end.

(** The values of the longest prefix of hexadecimal digits. *)
Fixpoint hex_prefix (s : string) : list N :=
  match s with
  | String c r =>
      match hex_value c with
      | Some d => d :: hex_prefix r
      | None => []
      end
  | EmptyString => []
  end.

Definition parse_magnitude (s : string) : option N :=
  match s with
  | String "0" (String "x" r) | String "0" (String "X" r) =>
      match hex_prefix r with
      | [] => None
      | ds => Some (fold_left (fun a d => 16 * a + d)%N ds 0%N)
      end
  | _ =>
      match fst (read_digits s) with
      | Nil => None
      | u => Some (N.of_uint u)
      end
  end.

(** [parseInt(s)] with no radix; [None] is [NaN]. *)
Definition parseInt (s : string) : option Z :=
  match trim_start s with
  | String "-" r => option_map (fun n => - Z.of_N n) (parse_magnitude r)
  | String "+" r => option_map Z.of_N (parse_magnitude r)
  | r => option_map Z.of_N (parse_magnitude r)
  end.

(** ** [btoa] *)

Definition b64_char (n : N) : ascii :=
  (if n <? 26 then ascii_of_N (65 + n)
   else if n <? 52 then ascii_of_N (97 + (n - 26))
   else if n <? 62 then ascii_of_N (48 + (n - 52))
   else if n =? 62 then "+"%char else "/"%char)%N.

Fixpoint b64_groups (l : list N) : string :=
  match l with
  | [] => ""
  | [a] =>
      String (b64_char (a / 4)) (String (b64_char (a mod 4 * 16)) "==")
  | [a; b] =>
      String (b64_char (a / 4))
        (String (b64_char (a mod 4 * 16 + b / 16))
           (String (b64_char (b mod 16 * 4)) "="))
  | a :: b :: c :: rest =>
      String (b64_char (a / 4))
        (String (b64_char (a mod 4 * 16 + b / 16))
           (String (b64_char (b mod 16 * 4 + c / 64))
              (String (b64_char (c mod 64)) (b64_groups rest))))
  end%N.

Definition btoa (s : string) : string :=
  b64_groups (map code (list_ascii_of_string s)).

End JS.

Import JS.

(* ===================================================================== *)
(** * The storage contract and the wallet                                  *)
(* ===================================================================== *)

(** What a JavaScript statement of the client can throw. *)
Inductive exn : Type :=
  | Error (message : string)   (* [throw new Error(message)] *)
  | TypeError                  (* a call or an iteration on a value that has none *)
  | SyntaxError                (* [JSON.parse] *)
  | Rejected.                  (* a transaction that was not signed or not mined *)

Inductive outcome (A : Type) : Type :=
  | Returns (a : A)
  | Throws (e : exn).
Arguments Returns {A} a.
Arguments Throws {A} e.

(** Modelled from the spec: the contract behind [getContractReadOnly] and
    [getContractWithSigner] is not among the sources.  Section 6 of the spec
    gives its surface: [isAvailable() -> bool], [getData(key) -> bytes],
    [setData(key, value) -> transaction], over string-keyed byte storage;
    a key never written reads as the empty byte string, and a read always
    answers.  [mined n] tells whether the [n]-th transaction the client
    sends is signed and mined, [sent] counts the transactions sent so far. *)
Record World : Type := {
  storage : gmap string string;
  available : bool;
  mined : nat -> bool;
  sent : nat
}.

Definition Async (A : Type) : Type := World -> outcome A * World.

Definition ret {A : Type} (a : A) : Async A := fun w => (Returns a, w).
Definition throw {A : Type} (e : exn) : Async A := fun w => (Throws e, w).
Definition bind {A B : Type} (m : Async A) (k : A -> Async B) : Async B :=
  fun w =>
    match m w with
    | (Returns a, w') => k a w'
    | (Throws e, w') => (Throws e, w')
    end.

Notation "'let!' x ':=' m 'in' k" := (bind m (fun x => k))
  (at level 10, x name, m at level 100, k at level 200).

Definition read (w : World) (key : string) : string :=
  default EmptyString (storage w !! key).

Definition getData (key : string) : Async string :=
  fun w => (Returns (read w key), w).

(** The world after a mined [setData(key, value)]. *)
Definition written (key value : string) (w : World) : World :=
  {| storage := <[key := value]> (storage w); available := available w;
     mined := mined w; sent := S (sent w) |}.

(** The world after a [setData] that was not mined. *)
Definition refused (w : World) : World :=
  {| storage := storage w; available := available w;
     mined := mined w; sent := S (sent w) |}.

Definition setData (key value : string) : Async unit :=
  fun w =>
    if mined w (sent w) then (Returns tt, written key value w)
    else (Throws Rejected, refused w).

(* ===================================================================== *)
(** * The client: App.tsx                                                  *)
(* ===================================================================== *)

(** [interface TrainingRecord].  The interface is erased when the program
    runs: a field holds whatever the stored JSON held, [None] when the
    property was missing. *)
Module TrainingRecord.
Record t : Type := {
  id : json;
  encryptedData : option json;
  timestamp : option json;
  owner : option json;
  category : option json;
  cognitiveScore : json;
  trainingPlan : json;
  status : json
}.
End TrainingRecord.

(** The state [newRecordData] of the creation form. *)
Module NewRecordData.
Record t : Type := {
  category : string;
  cognitiveScore : string;
  trainingNotes : string
}.

Definition to_json (d : t) : json :=
  JObj [("category", JStr (category d));
        ("cognitiveScore", JStr (cognitiveScore d));
        ("trainingNotes", JStr (trainingNotes d))].
End NewRecordData.

(** The message [transactionStatus] ends with. *)
Inductive banner : Type :=
  | Idle
  | Success (message : string)
  | Failure (cause : exn).

(** The wallet and the contract handles of the page. *)
Record Session : Type := {
  provider : bool;     (* [provider] is not null *)
  account : string;
  readOnly : bool;     (* [getContractReadOnly()] is not null *)
  signer : bool        (* [getContractWithSigner()] is not null *)
}.

(** What [Date.now()] and [Math.random()] return during one submission. *)
Record Entropy : Type := {
  now_id : Z;          (* [Date.now()] in the record id *)
  random : string;     (* [Math.random().toString(36).substring(2, 9)] *)
  now_ts : Z           (* [Date.now()] in the timestamp *)
}.

Record App : Type := {
  chain : World;
  records : list TrainingRecord.t;
  transactionStatus : banner
}.

Definition index_key : string := "training_keys".

(** [`training_${key}`] *)
Definition record_key (key : json) : string := "training_" +:+ to_string key.

(** Lines 106-114 and 202-210: the index as read from its bytes. *)
Definition parse_keys (keysBytes : string) : json :=
  if (0 <? String.length keysBytes)%nat then
    match JSON_parse keysBytes with
    | Some keys => keys
    | None => JArr []
    end
  else JArr [].

(** What [for (const key of keys)] visits; [None] when [keys] is not
    iterable. *)
Definition iterate (keys : json) : option (list json) :=
  match keys with
  | JArr xs => Some xs
  | JStr s => Some (map (fun c => JStr (String c EmptyString)) (list_ascii_of_string s))
  | _ => None
  end.

(** [recordData.name] on a value that is not [null], for the names the
    client reads; [None] is [undefined]. *)
Definition field (recordData : json) (name : string) : option json :=
  match recordData with
  | JObj fields => assoc name fields
  | _ => None
  end.

(** Lines 120-137: one turn of the loop; [None] when nothing is pushed
    (no bytes, a [SyntaxError] of [JSON.parse], or the [TypeError] of a
    property read on [null], all caught inside the loop). *)
Definition load_record (w : World) (key : json) : option TrainingRecord.t :=
  let recordBytes := read w (record_key key) in
  if (0 <? String.length recordBytes)%nat then
    match JSON_parse recordBytes with
    | Some JNull => None
    | Some recordData =>
        Some {| TrainingRecord.id := key;
                TrainingRecord.encryptedData := field recordData "data";
                TrainingRecord.timestamp := field recordData "timestamp";
                TrainingRecord.owner := field recordData "owner";
                TrainingRecord.category := field recordData "category";
                TrainingRecord.cognitiveScore :=
                  or_else (field recordData "cognitiveScore") (JNum 0);
                TrainingRecord.trainingPlan :=
                  or_else (field recordData "trainingPlan") (JStr "Custom FHE Plan");
                TrainingRecord.status :=
                  or_else (field recordData "status") (JStr "pending") |}
    | None => None
    end
  else None.

(** [b.timestamp - a.timestamp]; a difference that is [NaN] counts as 0.
    Operands that are not numbers are not coerced in the model. *)
Definition compare_records (a b : TrainingRecord.t) : Z :=
  match TrainingRecord.timestamp b, TrainingRecord.timestamp a with
  | Some (JNum tb), Some (JNum ta) => tb - ta
  | _, _ => 0
  end.

(** [Array.prototype.sort]: a stable sort. *)
Fixpoint insert_record (r : TrainingRecord.t) (l : list TrainingRecord.t)
  : list TrainingRecord.t :=
  match l with
  | [] => [r]
  | x :: rest =>
      if compare_records r x <=? 0 then r :: x :: rest
      else x :: insert_record r rest
  end.

Definition sort_records (l : list TrainingRecord.t) : list TrainingRecord.t :=
  foldr insert_record [] l.

Definition set_records (l : list TrainingRecord.t) (app : App) : App :=
  {| chain := chain app; records := l; transactionStatus := transactionStatus app |}.

Definition loadRecords (s : Session) (app : App) : App :=
  if negb (readOnly s) then app
  else if negb (available (chain app)) then app
  else
    let keys := parse_keys (read (chain app) index_key) in
    match iterate keys with
    | Some ks => set_records (sort_records (omap (load_record (chain app)) ks)) app
    | None => app
    end.

(** Lines 178-183: the score of the form and the plan derived from it.
    The Number that [parseInt] returns is the double nearest to the integer
    the text denotes: that integer itself while its magnitude is below 2^53,
    which is where [score_of] is exact, and [Infinity] for a text that
    denotes more than the largest double.  The model has no [Infinity]: what
    depends on the score being written and read back is stated for scores
    that are [safe_integer]. *)
Definition score_of (input : string) : Z :=
  match parseInt input with
  | Some n => if n =? 0 then 50 else n
  | None => 50
  end.

Definition plan_of (score : Z) : string :=
  if score <? 40 then "Basic Cognitive Enhancement"
  else if score <? 70 then "Intermediate Brain Training"
  else "Advanced Neural Development".

(** [`${Date.now()}-${Math.random().toString(36).substring(2, 9)}`] *)
Definition new_record_id (e : Entropy) : string :=
  number_to_string (now_id e) +:+ "-" +:+ random e.

(** Lines 185-193: the object written for a new record. *)
Definition new_record_data (s : Session) (form : NewRecordData.t) (e : Entropy) : json :=
  let encryptedData :=
    "FHE-ENCRYPTED-" +:+ btoa (stringify (NewRecordData.to_json form)) in
  let score := score_of (NewRecordData.cognitiveScore form) in
  let trainingPlan := plan_of score in
  JObj [("data", JStr encryptedData);
        ("timestamp", JNum (now_ts e / 1000));
        ("owner", JStr (account s));
        ("category", JStr (NewRecordData.category form));
        ("cognitiveScore", JNum score);
        ("trainingPlan", JStr trainingPlan);
        ("status", JStr "pending")].

(** [keys.push(recordId)] *)
Definition push (keys : json) (x : json) : outcome json :=
  match keys with
  | JArr xs => Returns (JArr (xs ++ [x]))
  | _ => Throws TypeError
  end.

Definition lift {A : Type} (o : outcome A) : Async A := fun w => (o, w).

(** Lines 166-217: the body of the [try] block up to the second write. *)
Definition submit_body (s : Session) (form : NewRecordData.t) (e : Entropy) : Async unit :=
  if negb (signer s) then throw (Error "Failed to get contract with signer")
  else
    let recordId := new_record_id e in
    let recordData := new_record_data s form e in
    let! _ := setData (record_key (JStr recordId)) (stringify recordData) in
    let! keysBytes := getData index_key in
    let keys := parse_keys keysBytes in
    let! keys' := lift (push keys (JStr recordId)) in
    setData index_key (stringify keys').

Definition set_status (b : banner) (w : World) (app : App) : App :=
  {| chain := w; records := records app; transactionStatus := b |}.

Definition submitRecord (s : Session) (form : NewRecordData.t) (e : Entropy) (app : App) : App :=
  if negb (provider s) then app
  else
    match submit_body s form e (chain app) with
    | (Returns _, w) =>
        loadRecords s
          (set_status (Success "Cognitive data encrypted and stored securely!") w app)
    | (Throws x, w) => set_status (Failure x) w app
    end.

(** The own enumerable properties [{...recordData}] copies. *)
Definition own_properties (recordData : json) : list (string * json) :=
  match recordData with
  | JObj fields => fields
  | JArr xs => imap (fun i x => (number_to_string (Z.of_nat i), x)) xs
  | JStr s =>
      imap (fun i c => (number_to_string (Z.of_nat i), JStr (String c EmptyString)))
           (list_ascii_of_string s)
  | _ => []
  end.

(** Lines 267-288 and 326-347, which differ in the status they write:
    read the record, copy it with the new status, write it back. *)
Definition transition_body (s : Session) (newStatus : string) (recordId : json) : Async unit :=
  if negb (signer s) then throw (Error "Failed to get contract with signer")
  else
    let! recordBytes := getData (record_key recordId) in
    if (String.length recordBytes =? 0)%nat then throw (Error "Record not found")
    else
      match JSON_parse recordBytes with
      | None => throw SyntaxError
      | Some recordData =>
          let updatedRecord :=
            JObj (obj_set "status" (JStr newStatus) (own_properties recordData)) in
          setData (record_key recordId) (stringify updatedRecord)
      end.

Definition transition (s : Session) (newStatus message : string) (recordId : json)
    (app : App) : App :=
  if negb (provider s) then app
  else
    match transition_body s newStatus recordId (chain app) with
    | (Returns _, w) => loadRecords s (set_status (Success message) w app)
    | (Throws x, w) => set_status (Failure x) w app
    end.

Definition activateTraining (s : Session) (recordId : json) (app : App) : App :=
  transition s "active" "Training plan activated with FHE!" recordId app.

Definition completeTraining (s : Session) (recordId : json) (app : App) : App :=
  transition s "completed" "Training completed with FHE verification!" recordId app.

(* ===================================================================== *)
(** * The contract CognitiveEnhanceFHE                                     *)
(* ===================================================================== *)

Module Contract.

(** How a call ends: normally, by [require]/[revert], or by a panic
    (0x11 arithmetic overflow or underflow, 0x32 index out of bounds). *)
Inductive evm (A : Type) : Type :=
  | Done (a : A)
  | Revert (reason : string)
  | Panic (code : Z).
Arguments Done {A} a.
Arguments Revert {A} reason.
Arguments Panic {A} code.

Definition uint32_max : Z := 2 ^ 32 - 1.
Definition uint256_max : Z := 2 ^ 256 - 1.

(** Checked arithmetic of Solidity 0.8 on unsigned integers. *)
Definition checked_sub (a b : Z) : evm Z :=
  if b <=? a then Done (a - b) else Panic 17.

Definition checked_add (max a b : Z) : evm Z :=
  if a + b <=? max then Done (a + b) else Panic 17.

(** An [euint32]: a ciphertext handle, or the trivial encryption
    [FHE.asEuint32(v)] of a plain value. *)
Inductive euint32 : Type :=
  | Handle (h : Z)
  | AsEuint32 (plain : Z).

Record EncryptedTrainingPlan : Type := {
  planId : Z;
  encryptedMemoryExercises : euint32;
  encryptedAttentionExercises : euint32;
  encryptedProcessingExercises : euint32;
  encryptedFlexibilityExercises : euint32
}.

Record DecryptedRecommendation : Type := {
  memoryTraining : Z;
  attentionTraining : Z;
  processingTraining : Z;
  flexibilityTraining : Z;
  isGenerated : bool
}.

Record State : Type := {
  testResultCount : Z;
  trainingPlanCount : Z;
  trainingPlans : gmap Z EncryptedTrainingPlan;
  recommendations : gmap Z DecryptedRecommendation;
  requestToResultId : gmap Z Z
}.

Definition calculateTrainingIntensity (score : Z) : evm Z :=
  checked_sub 100 score.

Definition is_uint32 (x : Z) : bool := (0 <=? x) && (x <=? uint32_max).

(** [generatePlan(requestId, cleartexts, proof)].  [signed] is the verdict
    of [FHE.checkSignatures], which reverts when it is false; [cleartexts]
    is given as the [uint32[]] that [abi.decode] reads from the bytes.  The
    event is not modelled. *)
Definition generatePlan (signed : bool) (requestId : Z) (cleartexts : list Z)
    (s : State) : evm State :=
  let resultId := default 0 (requestToResultId s !! requestId) in
  if resultId =? 0 then Revert "Invalid request"
  else if negb signed then Revert "checkSignatures"
  else if negb (forallb is_uint32 cleartexts) then Revert "abi.decode"
  else
    match cleartexts !! 0%nat, cleartexts !! 1%nat,
          cleartexts !! 2%nat, cleartexts !! 3%nat with
    | Some memoryScore, Some attentionScore, Some processingScore, Some flexibilityScore =>
        match calculateTrainingIntensity memoryScore with
        | Done memoryTraining =>
        match calculateTrainingIntensity attentionScore with
        | Done attentionTraining =>
        match calculateTrainingIntensity processingScore with
        | Done processingTraining =>
        match calculateTrainingIntensity flexibilityScore with
        | Done flexibilityTraining =>
        match checked_add uint256_max (trainingPlanCount s) 1 with
        | Done newPlanId =>
            Done {|
              testResultCount := testResultCount s;
              trainingPlanCount := newPlanId;
              trainingPlans :=
                <[newPlanId :=
                    {| planId := newPlanId;
                       encryptedMemoryExercises := AsEuint32 memoryTraining;
                       encryptedAttentionExercises := AsEuint32 attentionTraining;
                       encryptedProcessingExercises := AsEuint32 processingTraining;
                       encryptedFlexibilityExercises := AsEuint32 flexibilityTraining |}]>
                  (trainingPlans s);
              recommendations :=
                <[resultId :=
                    {| memoryTraining := memoryTraining;
                       attentionTraining := attentionTraining;
                       processingTraining := processingTraining;
                       flexibilityTraining := flexibilityTraining;
                       isGenerated := true |}]>
                  (recommendations s);
              requestToResultId := requestToResultId s
            |}
        | Revert r => Revert r | Panic c => Panic c end
        | Revert r => Revert r | Panic c => Panic c end
        | Revert r => Revert r | Panic c => Panic c end
        | Revert r => Revert r | Panic c => Panic c end
        | Revert r => Revert r | Panic c => Panic c end
    | _, _, _, _ => Panic 50
    end.

End Contract.

(* ===================================================================== *)
(** * Notions used in the statements                                       *)
(* ===================================================================== *)

(** Values whose objects name every property once: the values
    [JSON.parse] returns and the client builds. *)
#[local] Set Warnings "-register-all".

Inductive wf : json -> Prop :=
  | wf_null : wf JNull
  | wf_bool b : wf (JBool b)
  | wf_num n : wf (JNum n)
  | wf_str s : wf (JStr s)
  | wf_arr xs : Forall wf xs -> wf (JArr xs)
  | wf_obj fields :
      NoDup (map fst fields) -> Forall (fun kv => wf (snd kv)) fields ->
      wf (JObj fields).

(** A bound on the fuel [parse_value] needs to read a value back. *)
Fixpoint size (v : json) : nat :=
  match v with
  | JArr xs => S (list_sum (map (fun x => S (size x)) xs))
  | JObj fields => S (list_sum (map (fun kv => S (size (snd kv))) fields))
  | _ => 1%nat
  end.

(** Text that may follow a value inside a JSON text. *)
Definition delimited (rest : string) : bool :=
  match rest with
  | EmptyString => true
  | String c _ => Ascii.eqb c "," || Ascii.eqb c "]" || Ascii.eqb c "}"
  end.

(** The characters a serialized value can start with. *)
Definition starts_value (c : ascii) : bool :=
  match c with
  | "n" | "t" | "f" | "034" | "[" | "{" | "-"
  | "0" | "1" | "2" | "3" | "4" | "5" | "6" | "7" | "8" | "9" => true
  | _ => false
  end%char.

(** The ids the index holds, as the client reads them. *)
Definition index_ids (w : World) : list json :=
  match parse_keys (read w index_key) with
  | JArr xs => xs
  | _ => []
  end.



(** A submission that went through: the wallet is connected and the banner
    reports the success. *)
Definition submitted (s : Session) (form : NewRecordData.t) (e : Entropy) (app : App) : Prop :=
  provider s = true /\
  transactionStatus (submitRecord s form e app)
  = Success "Cognitive data encrypted and stored securely!".

(** Submissions made one after the other. *)
Fixpoint submit_all (jobs : list (Session * NewRecordData.t * Entropy)) (app : App) : App :=
  match jobs with
  | [] => app
  | (s, form, e) :: rest => submit_all rest (submitRecord s form e app)
  end.

Fixpoint all_submitted (jobs : list (Session * NewRecordData.t * Entropy)) (app : App) : Prop :=
  match jobs with
  | [] => True
  | (s, form, e) :: rest =>
      submitted s form e app /\ all_submitted rest (submitRecord s form e app)
  end.

(** The record [r] with another status. *)
Definition with_status (r : TrainingRecord.t) (status : json) : TrainingRecord.t :=
  {| TrainingRecord.id := TrainingRecord.id r;
     TrainingRecord.encryptedData := TrainingRecord.encryptedData r;
     TrainingRecord.timestamp := TrainingRecord.timestamp r;
     TrainingRecord.owner := TrainingRecord.owner r;
     TrainingRecord.category := TrainingRecord.category r;
     TrainingRecord.cognitiveScore := TrainingRecord.cognitiveScore r;
     TrainingRecord.trainingPlan := TrainingRecord.trainingPlan r;
     TrainingRecord.status := status |}.

(** What a status transition [act] that writes [newStatus] does to a stored
    record object: it writes the key of the record and no other, the object
    under that key has the new status and every other property as before,
    and the record [loadRecords] decodes differs in its status alone. *)
Definition rewrites_status (act : Session -> json -> App -> App) (newStatus : string) : Prop :=
  forall (s : Session) (recordId : json) (app : App) (fields : list (string * json)),
    provider s = true -> signer s = true ->
    mined (chain app) (sent (chain app)) = true ->
    JSON_parse (read (chain app) (record_key recordId)) = Some (JObj fields) ->
    let after := chain (act s recordId app) in
    storage after
    = <[record_key recordId := stringify (JObj (obj_set "status" (JStr newStatus) fields))]>
        (storage (chain app)) /\
    (forall key, key <> record_key recordId -> read after key = read (chain app) key) /\
    (exists fields',
        JSON_parse (read after (record_key recordId)) = Some (JObj fields') /\
        assoc "status" fields' = Some (JStr newStatus) /\
        forall name, name <> "status" -> assoc name fields' = assoc name fields) /\
    (forall r,
        load_record (chain app) recordId = Some r ->
        load_record after recordId = Some (with_status r (JStr newStatus))).

(** What a status transition [act] does when no bytes are stored for the
    record: it fails with "Record not found" and sends no transaction. *)
Definition fails_not_found (act : Session -> json -> App -> App) : Prop :=
  forall (s : Session) (recordId : json) (app : App),
    provider s = true -> signer s = true ->
    String.length (read (chain app) (record_key recordId)) = 0%nat ->
    act s recordId app
    = {| chain := chain app; records := records app;
         transactionStatus := Failure (Error "Record not found") |}.

(** ** Sample data for the examples *)

Definition demo_world : World :=
  {| storage := ∅; available := true; mined := fun _ => true; sent := 0 |}.

Definition demo_app : App :=
  {| chain := demo_world; records := []; transactionStatus := Idle |}.

Definition demo_session : Session :=
  {| provider := true; account := "0x5aAe"; readOnly := true; signer := true |}.

Definition demo_form (score : string) : NewRecordData.t :=
  {| NewRecordData.category := "Memory";
     NewRecordData.cognitiveScore := score;
     NewRecordData.trainingNotes := "after lunch" |}.

Definition demo_entropy (now : Z) (suffix : string) : Entropy :=
  {| now_id := now; random := suffix; now_ts := now + 2 |}.

Definition demo_jobs : list (Session * NewRecordData.t * Entropy) :=
  [(demo_session, demo_form "85", demo_entropy 1700000000123 "k3j9x1a");
   (demo_session, demo_form "12", demo_entropy 1700000005123 "0zq8w2m")].

(** An index of four ids: [a] and [d] hold records, [b] holds bytes that are
    no JSON, [c] holds nothing. *)
Definition demo_listing : App :=
  {| chain :=
       {| storage :=
            <["training_keys" := stringify (JArr [JStr "a"; JStr "b"; JStr "c"; JStr "d"])]>
              (<["training_a" := stringify (JObj [("timestamp", JNum 5)])]>
                 (<["training_b" := "{oops"]>
                    (<["training_d" :=
                         stringify (JObj [("timestamp", JNum 9); ("status", JStr "active")])]>
                       ∅)));
          available := true; mined := fun _ => true; sent := 0 |};
     records := []; transactionStatus := Idle |}.

Definition demo_state : Contract.State :=
  {| Contract.testResultCount := 1; Contract.trainingPlanCount := 0;
     Contract.trainingPlans := ∅; Contract.recommendations := ∅;
     Contract.requestToResultId := {[ 7 := 1 ]} |}.

(** [Number.isSafeInteger]: the integers that a Number holds exactly. *)
Definition safe_integer (n : Z) : Prop := - (2 ^ 53 - 1) <= n <= 2 ^ 53 - 1.



(** A chain on which the first transaction sent is mined and no later one. *)
Definition demo_flaky_app : App :=
  {| chain := {| storage := ∅; available := true;
                 mined := fun n => Nat.eqb n 0; sent := 0 |};
     records := []; transactionStatus := Idle |}.

(** An index that holds the text [null]. *)
Definition demo_null_index : App :=
  {| chain := {| storage := {[ "training_keys" := "null" ]}; available := true;
                 mined := fun _ => true; sent := 0 |};
     records := []; transactionStatus := Idle |}.

(** The store after one submission, and the record it lists. *)
Definition demo_submitted : App :=
  submitRecord demo_session (demo_form "85") (demo_entropy 1700000000123 "k3j9x1a") demo_app.

Definition demo_record : TrainingRecord.t :=
  {| TrainingRecord.id := JStr "1700000000123-k3j9x1a";
     TrainingRecord.encryptedData :=
       Some (JStr ("FHE-ENCRYPTED-"
                   +:+ btoa (stringify (NewRecordData.to_json (demo_form "85")))));
     TrainingRecord.timestamp := Some (JNum 1700000000);
     TrainingRecord.owner := Some (JStr "0x5aAe");
     TrainingRecord.category := Some (JStr "Memory");
     TrainingRecord.cognitiveScore := JNum 85;
     TrainingRecord.trainingPlan := JStr "Advanced Neural Development";
     TrainingRecord.status := JStr "pending" |}.

Definition reads_back (v : json) : Prop :=
  forall fuel rest, (size v <= fuel)%nat -> delimited rest = true ->
    parse_value fuel (stringify v +:+ rest) = Some (v, rest).

(** Reading a value takes no more fuel than the characters it consumes. *)
Definition fuel_free {A : Type} (parse : nat -> string -> option (A * string))
    (fuel : nat) : Prop :=
  forall s x r,
    parse fuel s = Some (x, r) ->
    (String.length r < String.length s)%nat /\
    forall fuel', (String.length s - String.length r <= fuel')%nat ->
      parse fuel' s = Some (x, r).

(** ** Induction on values, and a normal form for appended text *)

Section JsonInduction.
Variable P : json -> Prop.
Hypothesis Hnull : P JNull.
Hypothesis Hbool : forall b, P (JBool b).
Hypothesis Hnum : forall n, P (JNum n).
Hypothesis Hstr : forall s, P (JStr s).
Hypothesis Harr : forall xs, Forall P xs -> P (JArr xs).
Hypothesis Hobj : forall fields, Forall (fun kv => P (snd kv)) fields -> P (JObj fields).

Fixpoint json_nested_ind (v : json) : P v :=
  match v with
  | JNull => Hnull
  | JBool b => Hbool b
  | JNum n => Hnum n
  | JStr s => Hstr s
  | JArr xs =>
      Harr xs
        ((fix all (l : list json) : Forall P l :=
            match l with
            | [] => @List.Forall_nil _ P
            | x :: l' => @List.Forall_cons _ _ x l' (json_nested_ind x) (all l')
            end) xs)
  | JObj fields =>
      Hobj fields
        ((fix all (l : list (string * json)) : Forall (fun kv => P (snd kv)) l :=
            match l with
            | [] => @List.Forall_nil _ _
            | kv :: l' => @List.Forall_cons _ _ kv l' (json_nested_ind (snd kv)) (all l')
            end) fields)
  end.
End JsonInduction.

(* ===================================================================== *)
(** * The rest of the page: statistics, search, the detail dialog          *)
(* ===================================================================== *)

(** [r.status === st] *)
Definition status_is (st : string) (r : TrainingRecord.t) : bool :=
  match TrainingRecord.status r with
  | JStr s => String.eqb s st
  | _ => false
  end.

(** Lines 46-48. *)
Definition activeCount (records : list TrainingRecord.t) : nat :=
  length (List.filter (status_is "active") records).

Definition completedCount (records : list TrainingRecord.t) : nat :=
  length (List.filter (status_is "completed") records).

Definition pendingCount (records : list TrainingRecord.t) : nat :=
  length (List.filter (status_is "pending") records).

(** [String.prototype.toLowerCase] on the characters of the model: the
    letters A-Z and the accented capitals U+00C0-U+00DE, the multiplication
    sign apart, move 32 places up. *)
Definition lower_char (c : ascii) : ascii :=
  let n := code c in
  (if ((65 <=? n) && (n <=? 90)) || ((192 <=? n) && (n <=? 222) && negb (n =? 215))
   then ascii_of_N (n + 32) else c)%N.

Fixpoint toLowerCase (s : string) : string :=
  match s with
  | EmptyString => EmptyString
  | String c r => String (lower_char c) (toLowerCase r)
  end.

Fixpoint starts_with (s t : string) : bool :=
  match t with
  | EmptyString => true
  | String b t' =>
      match s with
      | String a s' => Ascii.eqb a b && starts_with s' t'
      | EmptyString => false
      end
  end.

(** [s.includes(t)] *)
Fixpoint includes (s t : string) : bool :=
  starts_with s t ||
  match s with
  | String _ s' => includes s' t
  | EmptyString => false
  end.

(** [v.toLowerCase()]: a value that is no string has no such method. *)
Definition lower_of (v : option json) : outcome string :=
  match v with
  | Some (JStr s) => Returns (toLowerCase s)
  | _ => Throws TypeError
  end.

(** Lines 54-62: the callback of [records.filter]. *)
Definition matches (searchTerm filterCategory : string) (record : TrainingRecord.t)
  : outcome bool :=
  let term := toLowerCase searchTerm in
  let matchesCategory :=
    String.eqb filterCategory "all" ||
    match TrainingRecord.category record with
    | Some (JStr c) => String.eqb c filterCategory
    | _ => false
    end in
  match lower_of (Some (TrainingRecord.id record)) with
  | Throws x => Throws x
  | Returns i =>
      if includes i term then Returns matchesCategory
      else
        match lower_of (TrainingRecord.category record) with
        | Throws x => Throws x
        | Returns c =>
            if includes c term then Returns matchesCategory
            else
              match lower_of (TrainingRecord.owner record) with
              | Throws x => Throws x
              | Returns o => Returns (includes o term && matchesCategory)
              end
        end
  end.

(** [Array.prototype.filter] with a callback that may throw. *)
Fixpoint filter_with {A : Type} (p : A -> outcome bool) (l : list A) : outcome (list A) :=
  match l with
  | [] => Returns []
  | x :: rest =>
      match p x with
      | Throws e => Throws e
      | Returns b =>
          match filter_with p rest with
          | Throws e => Throws e
          | Returns kept => Returns (if b then x :: kept else kept)
          end
      end
  end.

Definition filteredRecords (searchTerm filterCategory : string)
    (records : list TrainingRecord.t) : outcome (list TrainingRecord.t) :=
  filter_with (matches searchTerm filterCategory) records.

(** Lines 402-404. *)
Definition isOwner (s : Session) (address : option json) : outcome bool :=
  match lower_of address with
  | Returns a => Returns (String.eqb (toLowerCase (account s)) a)
  | Throws x => Throws x
  end.

(** The buttons in the footer of [ModalDetail] (lines 903-918). *)
Inductive button : Type := ActivatePlan | MarkComplete.

Definition footer_buttons (isOwner : bool) (record : TrainingRecord.t) : list button :=
  (if isOwner && status_is "pending" record then [ActivatePlan] else []) ++
  (if isOwner && status_is "active" record then [MarkComplete] else []).

(** The dialog for [record] as the page renders it for session [s]. *)
Definition offered (s : Session) (record : TrainingRecord.t) : outcome (list button) :=
  match isOwner s (TrainingRecord.owner record) with
  | Returns b => Returns (footer_buttons b record)
  | Throws x => Throws x
  end.

(** [onClick] of a button: [onActivate(record.id)] or [onComplete(record.id)]. *)
Definition click (s : Session) (b : button) (record : TrainingRecord.t) (app : App) : App :=
  match b with
  | ActivatePlan => activateTraining s (TrainingRecord.id record) app
  | MarkComplete => completeTraining s (TrainingRecord.id record) app
  end.

(** The status a button leads to. *)
Definition leads_to (b : button) : string :=
  match b with
  | ActivatePlan => "active"
  | MarkComplete => "completed"
  end.

(** What the user can make the page do to the chain. *)
Inductive action : Type :=
  | Submit (s : Session) (form : NewRecordData.t) (e : Entropy)
  | Activate (s : Session) (recordId : json)
  | Complete (s : Session) (recordId : json)
  | Refresh (s : Session).

Definition perform (a : action) (app : App) : App :=
  match a with
  | Submit s form e => submitRecord s form e app
  | Activate s recordId => activateTraining s recordId app
  | Complete s recordId => completeTraining s recordId app
  | Refresh s => loadRecords s app
  end.

Definition perform_all (actions : list action) (app : App) : App :=
  fold_left (fun st a => perform a st) actions app.

(** No key that holds bytes in [w] is empty in [w']. *)
Definition nothing_emptied (w w' : World) : Prop :=
  forall key, read w key <> EmptyString -> read w' key <> EmptyString.

(** Every id of the index has bytes stored under its key. *)
Definition indexed_are_stored (w : World) : Prop :=
  forall key, In key (index_ids w) -> read w (record_key key) <> EmptyString.

(* ===================================================================== *)
(** * The rest of the contract                                             *)
(* ===================================================================== *)

Module Ledger.
Import Contract.

Record EncryptedTestResult : Type := {
  resultId : Z;
  encryptedMemoryScore : euint32;
  encryptedAttentionScore : euint32;
  encryptedProcessingScore : euint32;
  encryptedFlexibilityScore : euint32;
  timestamp : Z
}.

(** The storage of the contract: the part [generatePlan] works on ([core])
    and the other state variables. *)
Record t : Type := {
  core : State;
  testResults : gmap Z EncryptedTestResult;
  encryptedUserProgress : gmap Z euint32;
  userList : list Z
}.

Definition with_core (c : State) (l : t) : t :=
  {| core := c; testResults := testResults l;
     encryptedUserProgress := encryptedUserProgress l; userList := userList l |}.

(** The value a mapping holds where nothing was written. *)
Definition no_recommendation : DecryptedRecommendation :=
  {| memoryTraining := 0; attentionTraining := 0; processingTraining := 0;
     flexibilityTraining := 0; isGenerated := false |}.

Definition recommendation_of (resultId : Z) (l : t) : DecryptedRecommendation :=
  default no_recommendation (recommendations (core l) !! resultId).

(** [submitTestResults]; [now] is [block.timestamp].  The event is not
    modelled. *)
Definition submitTestResults (now : Z) (m a p f : euint32) (l : t) : evm t :=
  match checked_add uint256_max (testResultCount (core l)) 1 with
  | Done newId =>
      Done {|
        core :=
          {| testResultCount := newId;
             trainingPlanCount := trainingPlanCount (core l);
             trainingPlans := trainingPlans (core l);
             recommendations := <[newId := no_recommendation]> (recommendations (core l));
             requestToResultId := requestToResultId (core l) |};
        testResults :=
          <[newId := {| resultId := newId;
                        encryptedMemoryScore := m; encryptedAttentionScore := a;
                        encryptedProcessingScore := p; encryptedFlexibilityScore := f;
                        timestamp := now |}]> (testResults l);
        encryptedUserProgress := encryptedUserProgress l;
        userList := userList l |}
  | Revert r => Revert r
  | Panic c => Panic c
  end.

(** [requestTrainingPlan(resultId)]; [reqId] is the request id that
    [FHE.requestDecryption] returns.  The modifier [onlyUser] is empty. *)
Definition requestTrainingPlan (reqId resultId : Z) (l : t) : evm t :=
  if isGenerated (recommendation_of resultId l) then Revert "Plan already exists"
  else
    Done (with_core
            {| testResultCount := testResultCount (core l);
               trainingPlanCount := trainingPlanCount (core l);
               trainingPlans := trainingPlans (core l);
               recommendations := recommendations (core l);
               requestToResultId := <[reqId := resultId]> (requestToResultId (core l)) |}
            l).

(** [generatePlan] on the whole storage. *)
Definition generatePlan (signed : bool) (requestId : Z) (cleartexts : list Z) (l : t)
  : evm t :=
  match Contract.generatePlan signed requestId cleartexts (core l) with
  | Done c => Done (with_core c l)
  | Revert r => Revert r
  | Panic c => Panic c
  end.

(** [getRecommendation(resultId)] *)
Definition getRecommendation (resultId : Z) (l : t) : Z * Z * Z * Z * bool :=
  let r := recommendation_of resultId l in
  (memoryTraining r, attentionTraining r, processingTraining r,
   flexibilityTraining r, isGenerated r).

(** [updateProgress(planId, encryptedProgress)] called by [sender];
    [isInitialized] is [FHE.isInitialized], and a user without an entry
    holds the zero handle. *)
Definition updateProgress (isInitialized : euint32 -> bool) (sender planId : Z)
    (encryptedProgress : euint32) (l : t) : t :=
  let current := default (Handle 0) (encryptedUserProgress l !! sender) in
  {| core := core l; testResults := testResults l;
     encryptedUserProgress := <[sender := encryptedProgress]> (encryptedUserProgress l);
     userList := if isInitialized current then userList l else userList l ++ [sender] |}.


(** Every user of the list holds an initialized progress, and the list
    names nobody twice. *)
Definition users_listed_once (isInitialized : euint32 -> bool) (l : t) : Prop :=
  NoDup (userList l) /\
  (forall u, In u (userList l) ->
     exists p, encryptedUserProgress l !! u = Some p /\ isInitialized p = true).

End Ledger.

Definition demo_ledger : Ledger.t :=
  {| Ledger.core :=
       {| Contract.testResultCount := 0; Contract.trainingPlanCount := 0;
          Contract.trainingPlans := ∅; Contract.recommendations := ∅;
          Contract.requestToResultId := ∅ |};
     Ledger.testResults := ∅; Ledger.encryptedUserProgress := ∅; Ledger.userList := [] |}.

(** One result submitted, and request 7 registered for it. *)
Definition demo_requested : Ledger.t := Ledger.with_core demo_state demo_ledger.

(** [FHE.isInitialized]: a handle is initialized when it is not zero. *)
Definition demo_isInitialized (h : Contract.euint32) : bool :=
  match h with
  | Contract.Handle n => negb (n =? 0)
  | Contract.AsEuint32 _ => true
  end.

(* ===================================================================== *)
(** * JSON: what is written is read back                                   *)
(* ===================================================================== *)

Lemma append_cons (x : ascii) (a b : string) : String x a +:+ b = String x (a +:+ b).
Proof. reflexivity. Qed.

Lemma append_nil (b : string) : EmptyString +:+ b = b.
Proof. reflexivity. Qed.

Lemma append_assoc (a b c : string) : (a +:+ b) +:+ c = a +:+ (b +:+ c).
Proof.
  induction a as [|x a IH]; [reflexivity|].
  rewrite !append_cons. now rewrite IH.
Qed.

Ltac flatten_append :=
  repeat (rewrite append_assoc || rewrite append_cons || rewrite append_nil).

Lemma length_append (a b : string) :
  String.length (a +:+ b) = (String.length a + String.length b)%nat.
Proof.
  induction a as [|x a IH]; [reflexivity|].
  rewrite append_cons. simpl. now rewrite IH.
Qed.

(** ** Digits *)

Lemma delimited_no_digit rest :
  delimited rest = true -> read_digits rest = (Nil, rest).
Proof.
  destruct rest as [|c r]; [reflexivity|]. simpl delimited. intros H.
  apply orb_true_iff in H as [H|H]; [apply orb_true_iff in H as [H|H]|];
    apply Ascii.eqb_eq in H; subst c; reflexivity.
Qed.

Lemma delimited_no_fraction rest : delimited rest = true -> no_fraction rest = true.
Proof.
  destruct rest as [|c r]; [reflexivity|]. simpl delimited. intros H.
  apply orb_true_iff in H as [H|H]; [apply orb_true_iff in H as [H|H]|];
    apply Ascii.eqb_eq in H; subst c; reflexivity.
Qed.

Lemma read_digits_string_of_uint (u : uint) (rest : string) :
  read_digits rest = (Nil, rest) ->
  read_digits (NilEmpty.string_of_uint u +:+ rest) = (u, rest).
Proof.
  intros Hrest. induction u; cbn [NilEmpty.string_of_uint]; auto;
    rewrite append_cons; cbn [read_digits digit_of]; now rewrite IHu.
Qed.

Lemma to_uint_no_leading_zero (p : positive) (u : uint) : Pos.to_uint p <> D0 u.
Proof.
  intros H.
  pose proof (DecimalPos.Unsigned.to_of (Pos.to_uint p)) as Hn.
  rewrite DecimalPos.Unsigned.of_to in Hn. simpl in Hn.
  rewrite H in Hn. unfold unorm in Hn.
  destruct (nzhead (D0 u)) eqn:Hz; try discriminate.
  - apply (DecimalPos.Unsigned.to_uint_nonzero p). rewrite H. exact Hn.
  - apply (nzhead_nonzero (D0 u) u0). exact Hz.
Qed.

Lemma parse_unsigned_pos (p : positive) (rest : string) :
  delimited rest = true ->
  parse_unsigned (NilEmpty.string_of_uint (Pos.to_uint p) +:+ rest) = Some (Npos p, rest).
Proof.
  intros Hd. unfold parse_unsigned.
  rewrite read_digits_string_of_uint by now apply delimited_no_digit.
  pose proof (DecimalPos.Unsigned.of_to p) as Hof.
  pose proof (DecimalPos.Unsigned.to_uint_nonnil p) as Hnil.
  pose proof (to_uint_no_leading_zero p) as Hz.
  rewrite (delimited_no_fraction _ Hd).
  destruct (Pos.to_uint p) eqn:E; try congruence;
    try (unfold N.of_uint; rewrite Hof; reflexivity).
Qed.

Lemma string_of_uint_digit (u : uint) (c : ascii) (r : string) :
  NilEmpty.string_of_uint u = String c r -> digit_of c <> None.
Proof. destruct u; simpl; intros E; inversion E; subst; discriminate. Qed.

Lemma digit_not_minus (c : ascii) : digit_of c <> None -> Ascii.eqb c "-" = false.
Proof.
  intros H. destruct (Ascii.eqb c "-") eqn:E; [|reflexivity].
  apply Ascii.eqb_eq in E. subst c. now contradiction H.
Qed.

Lemma parse_number_to_string (z : Z) (rest : string) :
  delimited rest = true ->
  parse_number (number_to_string z +:+ rest) = Some (JNum z, rest).
Proof.
  intros Hd. destruct z as [|p|p]; cbn [number_to_string].
  - rewrite append_cons, append_nil. cbn [parse_number]. simpl Ascii.eqb. cbv iota.
    unfold parse_unsigned. cbn [read_digits digit_of].
    rewrite (delimited_no_digit _ Hd), (delimited_no_fraction _ Hd). reflexivity.
  - destruct (NilEmpty.string_of_uint (Pos.to_uint p)) as [|c r] eqn:E.
    + exfalso. destruct (Pos.to_uint p) eqn:E'; try discriminate.
      now apply (DecimalPos.Unsigned.to_uint_nonnil p).
    + rewrite append_cons. cbn [parse_number].
      rewrite (digit_not_minus c) by (eapply string_of_uint_digit; exact E).
      rewrite <- append_cons, <- E, parse_unsigned_pos by assumption. reflexivity.
  - rewrite append_cons. cbn [parse_number]. simpl Ascii.eqb. cbv iota.
    rewrite parse_unsigned_pos by assumption. reflexivity.
Qed.

(** ** Strings *)

Lemma parse_escape_char (c : ascii) (t : string) :
  parse_string_body (escape_char c +:+ t) = cons_char c (parse_string_body t).
Proof. destruct c as [[] [] [] [] [] [] [] []]; reflexivity. Qed.

Lemma parse_escaped (s rest : string) :
  parse_string_body (escape s +:+ String dquote rest) = Some (s, rest).
Proof.
  induction s as [|c s IH]; [reflexivity|].
  cbn [escape]. now rewrite append_assoc, parse_escape_char, IH.
Qed.

(** ** Values *)

Lemma number_starts (z : Z) :
  exists c r, number_to_string z = String c r /\ (digit_of c <> None \/ c = "-"%char).
Proof.
  destruct z as [|p|p]; cbn [number_to_string].
  - exists "0"%char, EmptyString. split; [reflexivity | left; discriminate].
  - destruct (NilEmpty.string_of_uint (Pos.to_uint p)) as [|c r] eqn:E.
    + exfalso. destruct (Pos.to_uint p) eqn:E'; try discriminate.
      now apply (DecimalPos.Unsigned.to_uint_nonnil p).
    + exists c, r. split; [reflexivity|]. left. eapply string_of_uint_digit; exact E.
  - eexists _, _. split; [reflexivity | now right].
Qed.

Lemma digit_starts_value (c : ascii) :
  digit_of c <> None \/ c = "-"%char -> starts_value c = true.
Proof.
  intros [H| ->]; [|reflexivity].
  destruct c as [[] [] [] [] [] [] [] []]; try reflexivity; now contradiction H.
Qed.

Lemma stringify_starts (v : json) :
  exists c r, stringify v = String c r /\ starts_value c = true.
Proof.
  destruct v as [|[]|n|s|xs|fields]; cbn [stringify];
    try (eexists _, _; split; reflexivity).
  destruct (number_starts n) as (c & r & E & H).
  exists c, r. split; [exact E | now apply digit_starts_value].
Qed.

Lemma parse_value_number (fuel : nat) (c : ascii) (r : string) :
  digit_of c <> None \/ c = "-"%char ->
  parse_value (S fuel) (String c r) = parse_number (String c r).
Proof.
  intros [H| ->]; [|reflexivity].
  destruct c as [[] [] [] [] [] [] [] []]; try reflexivity; now contradiction H.
Qed.

Lemma next_is_value (d c : ascii) (r : string) :
  starts_value c = true -> starts_value d = false -> next_is d (String c r) = None.
Proof.
  intros Hc Hd. unfold next_is.
  assert (skip_ws (String c r) = String c r) as ->.
  { destruct c as [[] [] [] [] [] [] [] []]; try discriminate; reflexivity. }
  destruct (Ascii.eqb c d) eqn:E; [|reflexivity].
  apply Ascii.eqb_eq in E. congruence.
Qed.

Lemma obj_set_fresh (k : string) (v : json) (o : list (string * json)) :
  k ∉ map fst o -> obj_set k v o = o ++ [(k, v)].
Proof.
  induction o as [|[k' v'] o IH]; [reflexivity|]. cbn [map fst obj_set app].
  rewrite not_elem_of_cons. intros [Hne Hnin].
  destruct (String.eqb k k') eqn:E.
  - apply String.eqb_eq in E. congruence.
  - now rewrite IH.
Qed.

Lemma fold_obj_set (l acc : list (string * json)) :
  NoDup (map fst (acc ++ l)) ->
  fold_left (fun o kv => obj_set (fst kv) (snd kv) o) l acc = acc ++ l.
Proof.
  revert acc. induction l as [|[k v] l IH]; intros acc H; cbn [fold_left fst snd].
  - now rewrite app_nil_r.
  - rewrite obj_set_fresh.
    + rewrite IH; rewrite <- app_assoc; [reflexivity | exact H].
    + rewrite map_app in H. cbn [map fst] in H.
      apply NoDup_app in H as (_ & H & _). intros Hin.
      apply (H k Hin). now left.
Qed.

Lemma obj_of_members_nodup (l : list (string * json)) :
  NoDup (map fst l) -> obj_of_members l = l.
Proof. intros H. unfold obj_of_members. now rewrite fold_obj_set. Qed.

Lemma list_sum_cons (a : nat) (l : list nat) : list_sum (a :: l) = (a + list_sum l)%nat.
Proof. reflexivity. Qed.

Lemma next_is_here (c : ascii) (s : string) :
  is_ws c = false -> next_is c (String c s) = Some s.
Proof. intros H. unfold next_is. cbn [skip_ws]. now rewrite H, Ascii.eqb_refl. Qed.

Lemma parse_elements_join (xs : list json) :
  xs <> [] -> Forall reads_back xs ->
  forall fuel rest,
    (list_sum (map (fun x => S (size x)) xs) <= fuel)%nat ->
    parse_elements fuel (join_with "]" stringify xs +:+ rest) = Some (xs, rest).
Proof.
  induction xs as [|x xs IH]; [congruence|]. intros _ Hall fuel rest Hfuel.
  apply Forall_cons in Hall as [Hx Hxs].
  cbn [map] in Hfuel. rewrite list_sum_cons in Hfuel.
  destruct fuel as [|fuel]; [lia|]. cbn [parse_elements].
  destruct xs as [|y xs].
  - cbn [join_with]. rewrite append_assoc.
    rewrite Hx by (reflexivity || lia).
    reflexivity.
  - change (join_with "]" stringify (x :: y :: xs))
      with (stringify x +:+ "," +:+ join_with "]" stringify (y :: xs)).
    rewrite !append_assoc.
    rewrite Hx by (reflexivity || lia).
    rewrite append_cons, append_nil, next_is_here by reflexivity.
    rewrite IH; [reflexivity | congruence | assumption | lia].
Qed.

Lemma parse_member (k : string) (x : json) (fuel : nat) (rest : string) :
  reads_back x -> (size x <= fuel)%nat -> delimited rest = true ->
  match next_is dquote ((quote k +:+ String ":" (stringify x)) +:+ rest) with
  | Some r =>
      match parse_string_body r with
      | Some (k', r1) =>
          match next_is ":" r1 with
          | Some r2 =>
              match parse_value fuel r2 with
              | Some (x', r3) => Some (k', x', r3)
              | None => None
              end
          | None => None
          end
      | None => None
      end
  | None => None
  end = Some (k, x, rest).
Proof.
  intros Hx Hfuel Hd. unfold quote. flatten_append.
  rewrite next_is_here by reflexivity.
  rewrite parse_escaped, next_is_here by reflexivity.
  now rewrite Hx.
Qed.

Lemma parse_members_join (fields : list (string * json)) :
  fields <> [] -> Forall (fun kv => reads_back (snd kv)) fields ->
  forall fuel rest,
    (list_sum (map (fun kv => S (size (snd kv))) fields) <= fuel)%nat ->
    parse_members fuel
      (join_with "}" (fun kv => quote (fst kv) +:+ String ":" (stringify (snd kv))) fields
         +:+ rest)
    = Some (fields, rest).
Proof.
  induction fields as [|[k x] fields IH]; [congruence|]. intros _ Hall fuel rest Hfuel.
  apply Forall_cons in Hall as [Hx Hxs]. cbn [snd] in Hx.
  cbn [map snd] in Hfuel. rewrite list_sum_cons in Hfuel.
  destruct fuel as [|fuel]; [lia|]. cbn [parse_members].
  destruct fields as [|kv fields].
  - cbn [join_with fst snd]. rewrite append_assoc.
    pose proof (parse_member k x fuel ("}" +:+ rest) Hx ltac:(lia) eq_refl) as Hm.
    destruct (next_is dquote _) as [r|]; [|discriminate Hm].
    destruct (parse_string_body r) as [[k' r1]|]; [|discriminate Hm].
    destruct (next_is ":" r1) as [r2|]; [|discriminate Hm].
    destruct (parse_value fuel r2) as [[x' r3]|]; [|discriminate Hm].
    inversion Hm; subst. reflexivity.
  - set (f := fun kv0 : string * json => quote (fst kv0) +:+ String ":" (stringify (snd kv0))).
    change (join_with "}" f ((k, x) :: kv :: fields))
      with ((quote k +:+ String ":" (stringify x)) +:+ "," +:+ join_with "}" f (kv :: fields)).
    rewrite append_assoc.
    pose proof (parse_member k x fuel (("," +:+ join_with "}" f (kv :: fields)) +:+ rest) Hx
                  ltac:(lia) eq_refl) as Hm.
    destruct (next_is dquote _) as [r|]; [|discriminate Hm].
    destruct (parse_string_body r) as [[k' r1]|]; [|discriminate Hm].
    destruct (next_is ":" r1) as [r2|]; [|discriminate Hm].
    destruct (parse_value fuel r2) as [[x' r3]|]; [|discriminate Hm].
    inversion Hm; subst.
    rewrite append_assoc, append_cons, append_nil, next_is_here by reflexivity.
    rewrite IH; [reflexivity | congruence | assumption | lia].
Qed.

Lemma wf_reads_back (v : json) : wf v -> reads_back v.
Proof.
  induction v as [|b|n|s|xs IH|fields IH] using json_nested_ind;
    intros Hwf fuel rest Hfuel Hd;
    (destruct fuel as [|fuel]; [cbn [size] in Hfuel; lia|]).
  - reflexivity.
  - destruct b; reflexivity.
  - cbn [stringify].
    destruct (number_starts n) as (c & r & E & Hc).
    rewrite E, append_cons, parse_value_number by assumption.
    rewrite <- append_cons, <- E. now apply parse_number_to_string.
  - cbn [stringify]. unfold quote. rewrite append_cons, append_assoc.
    cbn [parse_value skip_ws]. simpl is_ws. cbv iota.
    simpl Ascii.eqb. cbv iota.
    rewrite append_cons, append_nil, parse_escaped. reflexivity.
  - inversion Hwf as [| | | |xs' Hxs|]; subst.
    cbn [stringify size] in *. rewrite append_cons.
    cbn [parse_value skip_ws]. simpl is_ws. cbv iota. simpl Ascii.eqb. cbv iota.
    destruct xs as [|x xs]; [reflexivity|].
    destruct (stringify_starts x) as (c & r & E & Hc).
    assert (next_is "]" (join_with "]" stringify (x :: xs) +:+ rest) = None) as ->.
    { destruct xs; cbn [join_with]; rewrite E, !append_cons;
        now apply next_is_value. }
    rewrite parse_elements_join; [reflexivity | congruence | | lia].
    apply Forall_forall. intros y Hy.
    rewrite Forall_forall in IH. apply IH; [exact Hy|].
    rewrite Forall_forall in Hxs. now apply Hxs.
  - inversion Hwf as [| | | | |fs Hnd Hfs]; subst.
    cbn [stringify size] in *. rewrite append_cons.
    cbn [parse_value skip_ws]. simpl is_ws. cbv iota. simpl Ascii.eqb. cbv iota.
    destruct fields as [|[k x] fields]; [reflexivity|].
    assert (next_is "}"
              (join_with "}" (fun kv => quote (fst kv) +:+ String ":" (stringify (snd kv)))
                 ((k, x) :: fields) +:+ rest) = None) as ->.
    { destruct fields; reflexivity. }
    rewrite parse_members_join; [| congruence | | lia].
    + now rewrite obj_of_members_nodup.
    + apply Forall_forall. intros y Hy.
      rewrite Forall_forall in IH. apply IH; [exact Hy|].
      rewrite Forall_forall in Hfs. now apply Hfs.
Qed.

Lemma append_empty (a : string) : a +:+ EmptyString = a.
Proof. induction a as [|x a IH]; [reflexivity|]. rewrite append_cons. now rewrite IH. Qed.

Lemma join_length {A : Type} (close : string) (f : A -> string) (g : A -> nat) (l : list A) :
  (1 <= String.length close)%nat ->
  Forall (fun x => (g x <= String.length (f x))%nat) l ->
  (list_sum (map (fun x => S (g x)) l) <= String.length (join_with close f l))%nat.
Proof.
  intros Hc. induction 1 as [|x l Hx Hl IH]; [simpl; lia|].
  cbn [map]. rewrite list_sum_cons. destruct l as [|y l].
  - cbn [join_with map]. rewrite length_append. simpl list_sum. lia.
  - change (join_with close f (x :: y :: l))
      with (f x +:+ "," +:+ join_with close f (y :: l)).
    rewrite !length_append. simpl String.length at 2. lia.
Qed.

Lemma size_le_length (v : json) : (size v <= String.length (stringify v))%nat.
Proof.
  induction v as [|b|n|s|xs IH|fields IH] using json_nested_ind; cbn [size stringify].
  - simpl; lia.
  - destruct b; simpl; lia.
  - destruct (number_starts n) as (c & r & -> & _). simpl; lia.
  - unfold quote. simpl; lia.
  - cbn [String.length]. apply le_n_S. apply join_length; [simpl; lia | exact IH].
  - cbn [String.length]. apply le_n_S.
    apply (join_length "}" _ (fun kv => size (snd kv))); [simpl; lia|].
    eapply Forall_impl; [exact IH|]. intros [k x] H. cbn [fst snd] in *.
    rewrite length_append. cbn [String.length]. lia.
Qed.

(** [JSON.parse(JSON.stringify(v))] is [v]. *)
Lemma JSON_parse_stringify (v : json) : wf v -> JSON_parse (stringify v) = Some v.
Proof.
  intros Hwf. unfold JSON_parse.
  pose proof (wf_reads_back v Hwf (S (String.length (stringify v))) EmptyString) as H.
  rewrite append_empty in H. rewrite H; [reflexivity | | reflexivity].
  pose proof (size_le_length v). lia.
Qed.

(** ** What [JSON.parse] returns is well formed *)

Lemma obj_set_keys (k : string) (v : json) (o : list (string * json)) :
  map fst (obj_set k v o) = map fst o \/ map fst (obj_set k v o) = map fst o ++ [k] /\ k ∉ map fst o.
Proof.
  induction o as [|[k' v'] o IH]; cbn [obj_set map fst].
  - right. split; [reflexivity | apply not_elem_of_nil].
  - destruct (String.eqb k k') eqn:E; [now left|].
    apply String.eqb_neq in E.
    destruct IH as [IH|[IH Hk]]; cbn [map fst]; rewrite IH; [now left|right].
    split; [reflexivity|]. rewrite not_elem_of_cons. now split.
Qed.

Lemma obj_set_nodup (k : string) (v : json) (o : list (string * json)) :
  NoDup (map fst o) -> NoDup (map fst (obj_set k v o)).
Proof.
  intros H. destruct (obj_set_keys k v o) as [->|[-> Hk]]; [exact H|].
  apply NoDup_app. split; [exact H|]. split; [|apply NoDup_singleton].
  intros x Hx Hin. apply list_elem_of_singleton in Hin. now subst.
Qed.

Lemma obj_set_forall (P : json -> Prop) (k : string) (v : json) (o : list (string * json)) :
  P v -> Forall (fun kv => P (snd kv)) o -> Forall (fun kv => P (snd kv)) (obj_set k v o).
Proof.
  intros Hv. induction 1 as [|[k' v'] o Hx Ho IH]; cbn [obj_set].
  - now repeat constructor.
  - destruct (String.eqb k k'); constructor; auto.
Qed.

Lemma obj_of_members_wf (ms : list (string * json)) :
  Forall (fun kv => wf (snd kv)) ms -> wf (JObj (obj_of_members ms)).
Proof.
  intros H. unfold obj_of_members.
  assert (forall acc, NoDup (map fst acc) -> Forall (fun kv => wf (snd kv)) acc ->
            wf (JObj (fold_left (fun o kv => obj_set (fst kv) (snd kv) o) ms acc))) as G.
  { induction H as [|[k x] ms Hx Hms IH]; intros acc Hnd Hacc; cbn [fold_left fst snd].
    - now constructor.
    - apply IH; [now apply obj_set_nodup | now apply obj_set_forall]. }
  apply G; constructor.
Qed.

Lemma parse_number_wf (s : string) (v : json) (r : string) :
  parse_number s = Some (v, r) -> wf v.
Proof.
  unfold parse_number. destruct s as [|c s']; [discriminate|].
  destruct (Ascii.eqb c "-").
  - destruct (parse_unsigned s') as [[n r']|]; [|discriminate].
    intros E; inversion E; constructor.
  - destruct (parse_unsigned (String c s')) as [[n r']|]; [|discriminate].
    intros E; inversion E; constructor.
Qed.

Lemma expect_wf (lit : string) (v0 : json) (s : string) (v : json) (r : string) :
  wf v0 -> expect lit v0 s = Some (v, r) -> wf v.
Proof.
  intros H0. unfold expect. destruct (strip_prefix lit s); [|discriminate].
  intros E; inversion E; now subst.
Qed.

Lemma parse_wf (fuel : nat) :
  (forall s v r, parse_value fuel s = Some (v, r) -> wf v) /\
  (forall s xs r, parse_elements fuel s = Some (xs, r) -> Forall wf xs) /\
  (forall s ms r, parse_members fuel s = Some (ms, r) -> Forall (fun kv => wf (snd kv)) ms).
Proof.
  induction fuel as [|fuel (IHv & IHe & IHm)]; [repeat split; discriminate|].
  repeat split.
  - intros s v r. cbn [parse_value].
    destruct (skip_ws s) as [|c r0]; [discriminate|].
    destruct (Ascii.eqb c "n"); [apply expect_wf; constructor|].
    destruct (Ascii.eqb c "t"); [apply expect_wf; constructor|].
    destruct (Ascii.eqb c "f"); [apply expect_wf; constructor|].
    destruct (Ascii.eqb c dquote).
    { destruct (parse_string_body r0) as [[str r']|]; [|discriminate].
      intros E; inversion E; constructor. }
    destruct (Ascii.eqb c "[").
    { destruct (next_is "]" r0).
      - intros E; inversion E; repeat constructor.
      - destruct (parse_elements fuel r0) as [[xs r']|] eqn:Ee; [|discriminate].
        intros E; inversion E; subst. constructor. eapply IHe; exact Ee. }
    destruct (Ascii.eqb c "{").
    { destruct (next_is "}" r0).
      - intros E; inversion E; repeat constructor.
      - destruct (parse_members fuel r0) as [[ms r']|] eqn:Em; [|discriminate].
        intros E; inversion E; subst. apply obj_of_members_wf. eapply IHm; exact Em. }
    apply parse_number_wf.
  - intros s xs r. cbn [parse_elements].
    destruct (parse_value fuel s) as [[x r0]|] eqn:Ev; [|discriminate].
    destruct (next_is "," r0) as [r1|].
    + destruct (parse_elements fuel r1) as [[xs' r2]|] eqn:Ee; [|discriminate].
      intros E; inversion E; subst. constructor; [eapply IHv | eapply IHe]; eassumption.
    + destruct (next_is "]" r0); [|discriminate].
      intros E; inversion E; subst. repeat constructor. eapply IHv; eassumption.
  - intros s ms r. cbn [parse_members].
    destruct (next_is dquote s) as [r0|]; [|discriminate].
    destruct (parse_string_body r0) as [[k r1]|]; [|discriminate].
    destruct (next_is ":" r1) as [r2|]; [|discriminate].
    destruct (parse_value fuel r2) as [[x r3]|] eqn:Ev; [|discriminate].
    destruct (next_is "," r3) as [r4|].
    + destruct (parse_members fuel r4) as [[ms' r5]|] eqn:Em; [|discriminate].
      intros E; inversion E; subst. constructor; [eapply IHv | eapply IHm]; eassumption.
    + destruct (next_is "}" r3); [|discriminate].
      intros E; inversion E; subst. repeat constructor. eapply IHv; eassumption.
Qed.

Lemma JSON_parse_wf (text : string) (v : json) : JSON_parse text = Some v -> wf v.
Proof.
  unfold JSON_parse.
  destruct (parse_value _ text) as [[v' r]|] eqn:E; [|discriminate].
  destruct (skip_ws r); [|discriminate].
  intros H; inversion H; subst. eapply (proj1 (parse_wf _)); exact E.
Qed.

(** ** The fuel of [JSON_parse] is always enough *)

Lemma skip_ws_length (s : string) : (String.length (skip_ws s) <= String.length s)%nat.
Proof.
  induction s as [|c s IH]; [reflexivity|]. cbn [skip_ws].
  destruct (is_ws c); cbn [String.length]; lia.
Qed.

Lemma next_is_length (c : ascii) (s r : string) :
  next_is c s = Some r -> (String.length r < String.length s)%nat.
Proof.
  unfold next_is. pose proof (skip_ws_length s) as H.
  destruct (skip_ws s) as [|c' r']; [discriminate|].
  destruct (Ascii.eqb c' c); [|discriminate].
  intros [= ->]. cbn [String.length] in H. lia.
Qed.

Lemma cons_char_some (c : ascii) (o : option (string * string)) (k r : string) :
  cons_char c o = Some (k, r) -> exists k', o = Some (k', r).
Proof. destruct o as [[k' r']|]; [|discriminate]. intros [= _ ->]. now exists k'. Qed.

Lemma parse_string_body_length (n : nat) (s k r : string) :
  (String.length s <= n)%nat ->
  parse_string_body s = Some (k, r) -> (String.length r < String.length s)%nat.
Proof.
  revert s k r. induction n as [|n IH]; intros s k r Hn.
  - destruct s; [discriminate | cbn [String.length] in Hn; lia].
  - destruct s as [|c s]; [discriminate|]. cbn [parse_string_body String.length] in *.
    destruct (Ascii.eqb c dquote); [intros [= _ ->]; lia|].
    destruct (Ascii.eqb c backslash).
    + destruct s as [|e s]; [discriminate|].
      destruct (Ascii.eqb e "u").
      * destruct s as [|h1 [|h2 [|h3 [|h4 s]]]]; try discriminate.
        destruct (unicode_escape h1 h2 h3 h4); [|discriminate].
        intros H. apply cons_char_some in H as [k' H].
        apply IH in H; cbn [String.length] in *; lia.
      * destruct (simple_escape e); [|discriminate].
        intros H. apply cons_char_some in H as [k' H].
        apply IH in H; cbn [String.length] in *; lia.
    + destruct (code c <? 32)%N; [discriminate|].
      intros H. apply cons_char_some in H as [k' H].
      apply IH in H; lia.
Qed.

Lemma read_digits_length (s : string) :
  (String.length (snd (read_digits s)) <= String.length s)%nat /\
  (fst (read_digits s) <> Nil ->
   (String.length (snd (read_digits s)) < String.length s)%nat).
Proof.
  induction s as [|c s [IH _]]; [split; [reflexivity | now intros H]|].
  cbn [read_digits]. destruct (digit_of c) as [d|].
  - destruct (read_digits s) as [u r]. cbn [fst snd String.length] in *. split; lia.
  - cbn [fst snd]. split; [reflexivity | now intros H].
Qed.

Lemma parse_unsigned_length (s : string) (n : N) (r : string) :
  parse_unsigned s = Some (n, r) -> (String.length r < String.length s)%nat.
Proof.
  unfold parse_unsigned. pose proof (read_digits_length s) as [_ H].
  destruct (read_digits s) as [u r']. cbn [fst snd] in H.
  destruct u as [|u|u|u|u|u|u|u|u|u|u]; try discriminate;
    try (destruct (no_fraction r'); [|discriminate]; intros [= _ <-]; now apply H).
  destruct u; try discriminate.
  destruct (no_fraction r'); [|discriminate]. intros [= _ <-]. now apply H.
Qed.

Lemma parse_number_length (s : string) (v : json) (r : string) :
  parse_number s = Some (v, r) -> (String.length r < String.length s)%nat.
Proof.
  unfold parse_number. destruct s as [|c s']; [discriminate|].
  destruct (Ascii.eqb c "-").
  - destruct (parse_unsigned s') as [[n r']|] eqn:E; [|discriminate].
    intros [= _ <-]. apply parse_unsigned_length in E. cbn [String.length]. lia.
  - destruct (parse_unsigned (String c s')) as [[n r']|] eqn:E; [|discriminate].
    intros [= _ <-]. now apply parse_unsigned_length in E.
Qed.

Lemma strip_prefix_length (lit s r : string) :
  strip_prefix lit s = Some r ->
  String.length s = (String.length lit + String.length r)%nat.
Proof.
  revert s. induction lit as [|a lit IH]; intros s; cbn [strip_prefix].
  - now intros [= ->].
  - destruct s as [|b s]; [discriminate|]. destruct (Ascii.eqb a b); [|discriminate].
    intros H. apply IH in H. cbn [String.length]. lia.
Qed.

Lemma expect_length (lit : string) (v0 : json) (s : string) (v : json) (r : string) :
  (1 <= String.length lit)%nat ->
  expect lit v0 s = Some (v, r) -> (String.length r < String.length s)%nat.
Proof.
  intros Hlit. unfold expect. destruct (strip_prefix lit s) as [r'|] eqn:E; [|discriminate].
  intros [= _ <-]. apply strip_prefix_length in E. lia.
Qed.

Lemma parse_fuel_free (fuel : nat) :
  fuel_free parse_value fuel /\ fuel_free parse_elements fuel /\
  fuel_free parse_members fuel.
Proof.
  induction fuel as [|fuel (IHv & IHe & IHm)]; [repeat split; discriminate|].
  split; [|split].
  - intros s v r. cbn [parse_value].
    pose proof (skip_ws_length s) as Hws.
    destruct (skip_ws s) as [|c r0] eqn:Es; [discriminate|].
    cbn [String.length] in Hws.
    destruct (Ascii.eqb c "n") eqn:E1.
    { intros H. assert (Hl := H). apply expect_length in Hl; [|simpl; lia].
      cbn [String.length] in Hl. split; [lia|]. intros [|g] Hg; [lia|].
      cbn [parse_value]. now rewrite Es, E1. }
    destruct (Ascii.eqb c "t") eqn:E2.
    { intros H. assert (Hl := H). apply expect_length in Hl; [|simpl; lia].
      cbn [String.length] in Hl. split; [lia|]. intros [|g] Hg; [lia|].
      cbn [parse_value]. now rewrite Es, E1, E2. }
    destruct (Ascii.eqb c "f") eqn:E3.
    { intros H. assert (Hl := H). apply expect_length in Hl; [|simpl; lia].
      cbn [String.length] in Hl. split; [lia|]. intros [|g] Hg; [lia|].
      cbn [parse_value]. now rewrite Es, E1, E2, E3. }
    destruct (Ascii.eqb c dquote) eqn:E4.
    { destruct (parse_string_body r0) as [[str r']|] eqn:Eb; [|discriminate].
      intros [= <- <-].
      pose proof (parse_string_body_length _ _ _ _ (le_n _) Eb) as Hl.
      split; [lia|]. intros [|g] Hg; [lia|].
      cbn [parse_value]. now rewrite Es, E1, E2, E3, E4, Eb. }
    destruct (Ascii.eqb c "[") eqn:E5.
    { destruct (next_is "]" r0) as [r1|] eqn:En.
      - intros [= <- <-]. pose proof (next_is_length _ _ _ En) as Hl.
        split; [lia|]. intros [|g] Hg; [lia|].
        cbn [parse_value]. now rewrite Es, E1, E2, E3, E4, E5, En.
      - destruct (parse_elements fuel r0) as [[xs r']|] eqn:Ee; [|discriminate].
        intros [= <- <-]. destruct (IHe _ _ _ Ee) as [Hl Hmore].
        split; [lia|]. intros [|g] Hg; [lia|].
        cbn [parse_value]. rewrite Es, E1, E2, E3, E4, E5, En.
        now rewrite Hmore by lia. }
    destruct (Ascii.eqb c "{") eqn:E6.
    { destruct (next_is "}" r0) as [r1|] eqn:En.
      - intros [= <- <-]. pose proof (next_is_length _ _ _ En) as Hl.
        split; [lia|]. intros [|g] Hg; [lia|].
        cbn [parse_value]. now rewrite Es, E1, E2, E3, E4, E5, E6, En.
      - destruct (parse_members fuel r0) as [[ms r']|] eqn:Em; [|discriminate].
        intros [= <- <-]. destruct (IHm _ _ _ Em) as [Hl Hmore].
        split; [lia|]. intros [|g] Hg; [lia|].
        cbn [parse_value]. rewrite Es, E1, E2, E3, E4, E5, E6, En.
        now rewrite Hmore by lia. }
    intros H. pose proof (parse_number_length _ _ _ H) as Hl.
    cbn [String.length] in Hl. split; [lia|]. intros [|g] Hg; [lia|].
    cbn [parse_value]. now rewrite Es, E1, E2, E3, E4, E5, E6.
  - intros s xs r. cbn [parse_elements].
    destruct (parse_value fuel s) as [[x r0]|] eqn:Ev; [|discriminate].
    destruct (IHv _ _ _ Ev) as [Hl0 Hv].
    destruct (next_is "," r0) as [r1|] eqn:En.
    + destruct (parse_elements fuel r1) as [[xs' r2]|] eqn:Ee; [|discriminate].
      intros [= <- <-]. destruct (IHe _ _ _ Ee) as [Hl2 He].
      pose proof (next_is_length _ _ _ En) as Hl1.
      split; [lia|]. intros [|g] Hg; [lia|].
      cbn [parse_elements]. rewrite Hv by lia. rewrite En. now rewrite He by lia.
    + destruct (next_is "]" r0) as [r1|] eqn:En'; [|discriminate].
      intros [= <- <-]. pose proof (next_is_length _ _ _ En') as Hl1.
      split; [lia|]. intros [|g] Hg; [lia|].
      cbn [parse_elements]. rewrite Hv by lia. now rewrite En, En'.
  - intros s ms r. cbn [parse_members].
    destruct (next_is dquote s) as [r0|] eqn:Eq; [|discriminate].
    destruct (parse_string_body r0) as [[k r1]|] eqn:Eb; [|discriminate].
    destruct (next_is ":" r1) as [r2|] eqn:Ec; [|discriminate].
    destruct (parse_value fuel r2) as [[x r3]|] eqn:Ev; [|discriminate].
    destruct (IHv _ _ _ Ev) as [Hl3 Hv].
    pose proof (next_is_length _ _ _ Eq) as Hl0.
    pose proof (parse_string_body_length _ _ _ _ (le_n _) Eb) as Hl1.
    pose proof (next_is_length _ _ _ Ec) as Hl2.
    destruct (next_is "," r3) as [r4|] eqn:En.
    + destruct (parse_members fuel r4) as [[ms' r5]|] eqn:Em; [|discriminate].
      intros [= <- <-]. destruct (IHm _ _ _ Em) as [Hl5 Hm].
      pose proof (next_is_length _ _ _ En) as Hl4.
      split; [lia|]. intros [|g] Hg; [lia|].
      cbn [parse_members]. rewrite Eq, Eb, Ec. rewrite Hv by lia. rewrite En.
      now rewrite Hm by lia.
    + destruct (next_is "}" r3) as [r4|] eqn:En'; [|discriminate].
      intros [= <- <-]. pose proof (next_is_length _ _ _ En') as Hl4.
      split; [lia|]. intros [|g] Hg; [lia|].
      cbn [parse_members]. rewrite Eq, Eb, Ec. rewrite Hv by lia. now rewrite En, En'.
Qed.

(** A text that [parse_value] reads to its end with some fuel is read by
    [JSON_parse]: a [None] of [JSON_parse] is never for want of fuel. *)
Lemma JSON_parse_enough_fuel (fuel : nat) (text : string) (v : json) (r : string) :
  parse_value fuel text = Some (v, r) -> skip_ws r = EmptyString ->
  JSON_parse text = Some v.
Proof.
  intros H Hr. destruct (proj1 (parse_fuel_free fuel) _ _ _ H) as [_ Hmore].
  unfold JSON_parse. rewrite Hmore by lia. now rewrite Hr.
Qed.

Lemma JSON_parse_empty : JSON_parse EmptyString = None.
Proof. reflexivity. Qed.

Lemma stringify_nonempty (v : json) : (0 <? String.length (stringify v))%nat = true.
Proof. destruct (stringify_starts v) as (c & r & -> & _). reflexivity. Qed.

(** ** The storage contract *)

(** ** The key of a new record is not the key of the index *)

Lemma record_key_not_index (e : Entropy) : record_key (JStr (new_record_id e)) <> index_key.
Proof.
  unfold record_key, index_key, new_record_id. cbn [to_string].
  destruct (number_starts (now_id e)) as (c & r & -> & Hc).
  intros H. simpl in H. injection H as H _.
  destruct Hc as [Hc| ->]; [|discriminate]. subst c. now apply Hc.
Qed.

(* ===================================================================== *)
(** * The score and the plan                                               *)
(* ===================================================================== *)

Lemma score_of_nonzero (input : string) : score_of input <> 0.
Proof.
  unfold score_of. destruct (parseInt input) as [n|]; [|discriminate].
  destruct (n =? 0) eqn:E; [discriminate|]. now apply Z.eqb_neq.
Qed.

Lemma plan_of_nonempty (score : Z) : String.eqb (plan_of score) "" = false.
Proof. unfold plan_of. destruct (score <? 40), (score <? 70); reflexivity. Qed.

(** C1.  The plan is a function of the score alone: below 40 it is
    "Basic Cognitive Enhancement", from 40 to 69 "Intermediate Brain
    Training", from 70 on "Advanced Neural Development"; so 39 gives the
    basic plan, 40 and 69 the intermediate one, 70 the advanced one; and the
    record a submission writes carries the plan of the score it carries. *)
Theorem plan_of_score :
  (forall score : Z,
      (score < 40 -> plan_of score = "Basic Cognitive Enhancement") /\
      (40 <= score <= 69 -> plan_of score = "Intermediate Brain Training") /\
      (70 <= score -> plan_of score = "Advanced Neural Development")) /\
  plan_of 39 = "Basic Cognitive Enhancement" /\
  plan_of 40 = "Intermediate Brain Training" /\
  plan_of 69 = "Intermediate Brain Training" /\
  plan_of 70 = "Advanced Neural Development" /\
  (forall (s : Session) (form : NewRecordData.t) (e : Entropy),
      exists score : Z,
        field (new_record_data s form e) "cognitiveScore" = Some (JNum score) /\
        field (new_record_data s form e) "trainingPlan" = Some (JStr (plan_of score))).
Proof.
  split; [|repeat split; try reflexivity].
  - intros score. unfold plan_of. repeat split; intros H.
    + assert ((score <? 40) = true) as -> by (apply Z.ltb_lt; lia). reflexivity.
    + assert ((score <? 40) = false) as -> by (apply Z.ltb_ge; lia).
      assert ((score <? 70) = true) as -> by (apply Z.ltb_lt; lia). reflexivity.
    + assert ((score <? 40) = false) as -> by (apply Z.ltb_ge; lia).
      assert ((score <? 70) = false) as -> by (apply Z.ltb_ge; lia). reflexivity.
  - intros s form e. exists (score_of (NewRecordData.cognitiveScore form)).
    split; reflexivity.
Qed.

(** C9.  When [parseInt] finds no number in the score text (the text is
    empty or not numeric) or finds 0, the record written has score 50 and the
    plan "Intermediate Brain Training"; no record is written with score 0. *)
Theorem default_score :
  (forall (s : Session) (form : NewRecordData.t) (e : Entropy),
      parseInt (NewRecordData.cognitiveScore form) = None \/
      parseInt (NewRecordData.cognitiveScore form) = Some 0 ->
      field (new_record_data s form e) "cognitiveScore" = Some (JNum 50) /\
      field (new_record_data s form e) "trainingPlan"
      = Some (JStr "Intermediate Brain Training")) /\
  parseInt "" = None /\
  parseInt "abc" = None /\
  parseInt "0" = Some 0 /\
  score_of "" = 50 /\ score_of "abc" = 50 /\ score_of "0" = 50 /\
  (forall (s : Session) (form : NewRecordData.t) (e : Entropy),
      field (new_record_data s form e) "cognitiveScore" <> Some (JNum 0)).
Proof.
  split; [|repeat split; try reflexivity].
  - intros s form e Hzero. cbn. unfold score_of.
    destruct Hzero as [-> | ->]; split; reflexivity.
  - intros s form e E. cbn in E. injection E as E'. now apply score_of_nonzero in E'.
Qed.

(** C6 fails on the code: the score text "150" is stored as 150, and "-5"
    as -5; nothing between the form and the write bounds the score. *)
Example score_out_of_range :
  forall (s : Session) (e : Entropy),
    field (new_record_data s
             {| NewRecordData.category := "Memory";
                NewRecordData.cognitiveScore := "150";
                NewRecordData.trainingNotes := "" |} e) "cognitiveScore"
    = Some (JNum 150) /\
    field (new_record_data s
             {| NewRecordData.category := "Memory";
                NewRecordData.cognitiveScore := "-5";
                NewRecordData.trainingNotes := "" |} e) "cognitiveScore"
    = Some (JNum (-5)).
Proof. intros s e. split; reflexivity. Qed.

(* ===================================================================== *)
(** * The contract: training intensity                                     *)
(* ===================================================================== *)

Import Contract.

Lemma intensity_done (score : Z) :
  score <= 100 -> calculateTrainingIntensity score = Done (100 - score).
Proof.
  intros H. unfold calculateTrainingIntensity, checked_sub.
  now rewrite (proj2 (Z.leb_le score 100) H).
Qed.

Lemma intensity_panic (score : Z) :
  100 < score -> calculateTrainingIntensity score = Panic 17.
Proof.
  intros H. unfold calculateTrainingIntensity, checked_sub.
  now rewrite (proj2 (Z.leb_gt score 100) H).
Qed.

(** C10.  [calculateTrainingIntensity] returns [100 - score] for every score
    up to 100; [generatePlan], on a pending request whose signatures check
    and whose four decrypted scores are at most 100, stores for the result
    the four intensities [100 - score]; and whenever one of the four scores
    is above 100 the call does not complete: where it reaches the
    subtraction it ends in the arithmetic panic. *)
Theorem generatePlan_intensity :
  (forall score : Z, 0 <= score <= 100 ->
      calculateTrainingIntensity score = Done (100 - score)) /\
  (forall (requestId resultId m a p f : Z) (more : list Z) (s : State),
      requestToResultId s !! requestId = Some resultId -> resultId <> 0 ->
      forallb is_uint32 (m :: a :: p :: f :: more) = true ->
      m <= 100 -> a <= 100 -> p <= 100 -> f <= 100 ->
      trainingPlanCount s < uint256_max ->
      exists s',
        generatePlan true requestId (m :: a :: p :: f :: more) s = Done s' /\
        recommendations s' !! resultId
        = Some {| memoryTraining := 100 - m; attentionTraining := 100 - a;
                  processingTraining := 100 - p; flexibilityTraining := 100 - f;
                  isGenerated := true |} /\
        trainingPlanCount s' = trainingPlanCount s + 1) /\
  (forall (signed : bool) (requestId m a p f : Z) (more : list Z) (s : State),
      100 < m \/ 100 < a \/ 100 < p \/ 100 < f ->
      (forall s', generatePlan signed requestId (m :: a :: p :: f :: more) s <> Done s') /\
      (forall resultId,
          requestToResultId s !! requestId = Some resultId -> resultId <> 0 ->
          signed = true -> forallb is_uint32 (m :: a :: p :: f :: more) = true ->
          generatePlan signed requestId (m :: a :: p :: f :: more) s = Panic 17)).
Proof.
  split; [|split].
  - intros score [_ H]. now apply intensity_done.
  - intros requestId resultId m a p f more s Hreq Hne Hu Hm Ha Hp Hf Hcount.
    unfold generatePlan. rewrite Hreq. change (default 0 (Some resultId)) with resultId.
    rewrite (proj2 (Z.eqb_neq resultId 0) Hne). cbn [negb]. rewrite Hu. cbn [negb].
    cbn [lookup list_lookup].
    rewrite !intensity_done by assumption.
    unfold checked_add.
    rewrite (proj2 (Z.leb_le (trainingPlanCount s + 1) uint256_max)) by lia.
    eexists. split; [reflexivity|]. cbn [recommendations trainingPlanCount].
    split; [apply lookup_insert_eq | reflexivity].
  - intros signed requestId m a p f more s Hbig.
    assert (forall resultId,
              requestToResultId s !! requestId = Some resultId -> resultId <> 0 ->
              signed = true -> forallb is_uint32 (m :: a :: p :: f :: more) = true ->
              generatePlan signed requestId (m :: a :: p :: f :: more) s = Panic 17) as Hpanic.
    { intros resultId Hreq Hne -> Hu. unfold generatePlan. rewrite Hreq. change (default 0 (Some resultId)) with resultId.
      rewrite (proj2 (Z.eqb_neq resultId 0) Hne). cbn [negb]. rewrite Hu. cbn [negb].
      cbn [lookup list_lookup].
      destruct (Z_le_gt_dec m 100) as [Hm|Hm];
        [rewrite (intensity_done m Hm) | now rewrite (intensity_panic m) by lia].
      destruct (Z_le_gt_dec a 100) as [Ha|Ha];
        [rewrite (intensity_done a Ha) | now rewrite (intensity_panic a) by lia].
      destruct (Z_le_gt_dec p 100) as [Hp|Hp];
        [rewrite (intensity_done p Hp) | now rewrite (intensity_panic p) by lia].
      destruct (Z_le_gt_dec f 100) as [Hf|Hf];
        [lia | now rewrite (intensity_panic f) by lia]. }
    split; [|exact Hpanic].
    intros s' Hdone.
    destruct (requestToResultId s !! requestId) as [resultId|] eqn:Hreq.
    + destruct (Z.eq_dec resultId 0) as [->|Hne].
      * unfold generatePlan in Hdone. rewrite Hreq in Hdone. discriminate Hdone.
      * destruct signed.
        -- destruct (forallb is_uint32 (m :: a :: p :: f :: more)) eqn:Hu.
           ++ rewrite (Hpanic resultId) in Hdone by auto. discriminate.
           ++ unfold generatePlan in Hdone. rewrite Hreq in Hdone. change (default 0 (Some resultId)) with resultId in Hdone.
              rewrite (proj2 (Z.eqb_neq resultId 0) Hne) in Hdone. cbn [negb] in Hdone.
              rewrite Hu in Hdone. discriminate.
        -- unfold generatePlan in Hdone. rewrite Hreq in Hdone. change (default 0 (Some resultId)) with resultId in Hdone.
           rewrite (proj2 (Z.eqb_neq resultId 0) Hne) in Hdone. discriminate.
    + unfold generatePlan in Hdone. rewrite Hreq in Hdone. discriminate Hdone.
Qed.

(* ===================================================================== *)
(** * Listing the records                                                  *)
(* ===================================================================== *)

Lemma insert_record_perm (r : TrainingRecord.t) (l : list TrainingRecord.t) :
  Permutation (insert_record r l) (r :: l).
Proof.
  induction l as [|x l IH]; cbn [insert_record]; [reflexivity|].
  destruct (compare_records r x <=? 0); [reflexivity|].
  rewrite IH. apply perm_swap.
Qed.

Lemma sort_records_perm (l : list TrainingRecord.t) : Permutation (sort_records l) l.
Proof.
  induction l as [|x l IH]; [reflexivity|].
  unfold sort_records in *. cbn [foldr]. rewrite insert_record_perm. now constructor.
Qed.





Lemma load_record_id (w : World) (key : json) (r : TrainingRecord.t) :
  load_record w key = Some r -> TrainingRecord.id r = key.
Proof.
  unfold load_record.
  destruct (0 <? String.length _)%nat; [|discriminate].
  destruct (JSON_parse _) as [[]|]; try discriminate; now intros [= <-].
Qed.


Lemma loadRecords_chain (s : Session) (app : App) :
  chain (loadRecords s app) = chain app /\
  transactionStatus (loadRecords s app) = transactionStatus app.
Proof.
  unfold loadRecords.
  destruct (negb (readOnly s)); [now split|].
  destruct (negb (available (chain app))); [now split|].
  destruct (iterate _); now split.
Qed.

Lemma loadRecords_records (s : Session) (app : App) (ks : list json) :
  readOnly s = true -> available (chain app) = true ->
  iterate (parse_keys (read (chain app) index_key)) = Some ks ->
  records (loadRecords s app) = sort_records (omap (load_record (chain app)) ks).
Proof.
  intros Hro Hav Hks. unfold loadRecords. rewrite Hro, Hav. cbn [negb].
  now rewrite Hks.
Qed.


(* ===================================================================== *)
(** * Submitting a record                                                  *)
(* ===================================================================== *)

Lemma read_written (key value : string) (w : World) (key' : string) :
  read (written key value w) key' = if decide (key = key') then value else read w key'.
Proof.
  unfold read, written. cbn [storage]. destruct (decide (key = key')) as [->|Hne].
  - now rewrite lookup_insert_eq.
  - now rewrite lookup_insert_ne.
Qed.

Lemma read_refused (w : World) (key : string) : read (refused w) key = read w key.
Proof. reflexivity. Qed.

Lemma parse_keys_wf (keysBytes : string) : wf (parse_keys keysBytes).
Proof.
  unfold parse_keys. destruct (0 <? _)%nat; [|repeat constructor].
  destruct (JSON_parse keysBytes) eqn:E; [|repeat constructor].
  eapply JSON_parse_wf; exact E.
Qed.

Lemma parse_keys_stringify (v : json) : wf v -> parse_keys (stringify v) = v.
Proof.
  intros H. unfold parse_keys. now rewrite stringify_nonempty, JSON_parse_stringify.
Qed.

(** The five ways the body of [submitRecord] can go. *)
Lemma submit_body_cases (s : Session) (form : NewRecordData.t) (e : Entropy) (w : World) :
  let recordId := JStr (new_record_id e) in
  let w1 := written (record_key recordId) (stringify (new_record_data s form e)) w in
  submit_body s form e w =
    if negb (signer s) then (Throws (Error "Failed to get contract with signer"), w)
    else if negb (mined w (sent w)) then (Throws Rejected, refused w)
    else
      match parse_keys (read w index_key) with
      | JArr xs =>
          if mined w (S (sent w))
          then (Returns tt, written index_key (stringify (JArr (xs ++ [recordId]))) w1)
          else (Throws Rejected, refused w1)
      | _ => (Throws TypeError, w1)
      end.
Proof.
  intros recordId w1. unfold submit_body.
  destruct (signer s); cbn [negb]; [|reflexivity].
  unfold bind at 1. unfold setData at 1.
  destruct (mined w (sent w)) eqn:Hm1; cbn [negb]; [|reflexivity].
  fold recordId. fold w1.
  unfold bind at 1. unfold getData.
  assert (read w1 index_key = read w index_key) as ->.
  { unfold w1. rewrite read_written.
    destruct (decide _) as [E|]; [|reflexivity].
    exfalso. now apply (record_key_not_index e). }
  unfold bind, lift.
  destruct (parse_keys (read w index_key)); reflexivity.
Qed.

Lemma submitRecord_chain (s : Session) (form : NewRecordData.t) (e : Entropy) (app : App) :
  provider s = true ->
  chain (submitRecord s form e app) = snd (submit_body s form e (chain app)).
Proof.
  intros Hp. unfold submitRecord. rewrite Hp. cbn [negb].
  destruct (submit_body s form e (chain app)) as [[u|x] w]; [|reflexivity].
  now rewrite (proj1 (loadRecords_chain _ _)).
Qed.

(** C2.  A submission whose two transactions are mined reads the index under
    "training_keys", takes it to be empty when its bytes are absent or do not
    parse, appends the new record id, and writes the whole array back under
    the same key; the only other key written is the one of the new record. *)
Theorem submitRecord_appends (s : Session) (form : NewRecordData.t) (e : Entropy) (app : App) :
  provider s = true -> signer s = true ->
  mined (chain app) (sent (chain app)) = true ->
  mined (chain app) (S (sent (chain app))) = true ->
  let keysBytes := read (chain app) "training_keys" in
  let recordId := JStr (new_record_id e) in
  let after := chain (submitRecord s form e app) in
  (String.length keysBytes = 0%nat \/ JSON_parse keysBytes = None ->
   read after "training_keys" = stringify (JArr [recordId]) /\
   storage after
   = <["training_keys" := stringify (JArr [recordId])]>
       (<[record_key recordId := stringify (new_record_data s form e)]>
          (storage (chain app)))) /\
  (forall xs : list json,
      JSON_parse keysBytes = Some (JArr xs) ->
      read after "training_keys" = stringify (JArr (xs ++ [recordId])) /\
      storage after
      = <["training_keys" := stringify (JArr (xs ++ [recordId]))]>
          (<[record_key recordId := stringify (new_record_data s form e)]>
             (storage (chain app)))).
Proof.
  intros Hp Hs Hm1 Hm2 keysBytes recordId after.
  assert (forall xs, parse_keys keysBytes = JArr xs ->
            read after "training_keys" = stringify (JArr (xs ++ [recordId])) /\
            storage after
            = <["training_keys" := stringify (JArr (xs ++ [recordId]))]>
                (<[record_key recordId := stringify (new_record_data s form e)]>
                   (storage (chain app)))) as Hgen.
  { intros xs Hxs. unfold after. rewrite submitRecord_chain by assumption.
    rewrite submit_body_cases. cbv zeta. rewrite Hs, Hm1. cbn [negb].
    change (parse_keys (read (chain app) index_key)) with (parse_keys keysBytes).
    rewrite Hxs, Hm2. cbn [snd].
    split; [|reflexivity].
    rewrite read_written. now destruct (decide _). }
  split.
  - intros Hbad. apply (Hgen []). unfold parse_keys.
    destruct Hbad as [-> | ->]; [reflexivity | now destruct (0 <? _)%nat].
  - intros xs Hparse. apply Hgen. unfold parse_keys. rewrite Hparse.
    destruct (0 <? String.length keysBytes)%nat eqn:E; [reflexivity|].
    apply Nat.ltb_ge in E. destruct keysBytes; [discriminate Hparse | simpl in E; lia].
Qed.

Lemma read_new_record_index (s : Session) (form : NewRecordData.t) (e : Entropy) (w : World) :
  read (written (record_key (JStr (new_record_id e)))
          (stringify (new_record_data s form e)) w) index_key
  = read w index_key.
Proof.
  rewrite read_written. destruct (decide _) as [E|]; [|reflexivity].
  exfalso. now apply (record_key_not_index e).
Qed.

Lemma index_ids_same (w w' : World) :
  read w' index_key = read w index_key -> index_ids w' = index_ids w.
Proof. unfold index_ids. now intros ->. Qed.

Lemma submitRecord_index (s : Session) (form : NewRecordData.t) (e : Entropy) (app : App) :
  (submitted s form e app /\
   index_ids (chain (submitRecord s form e app))
   = index_ids (chain app) ++ [JStr (new_record_id e)]) \/
  (~ submitted s form e app /\
   index_ids (chain (submitRecord s form e app)) = index_ids (chain app)).
Proof.
  unfold submitted.
  destruct (provider s) eqn:Hp.
  2:{ right. split; [intros [? _]; discriminate|].
      unfold submitRecord. now rewrite Hp. }
  unfold submitRecord. rewrite Hp. cbn [negb].
  rewrite submit_body_cases. cbv zeta.
  set (w := chain app).
  set (w1 := written _ _ w).
  assert (read w1 index_key = read w index_key) as Hw1
    by apply read_new_record_index.
  destruct (signer s); cbn [negb].
  2:{ right. cbn. split; [intros [_ ?]; discriminate | reflexivity]. }
  destruct (mined w (sent w)); cbn [negb].
  2:{ right. cbn. split; [intros [_ ?]; discriminate | reflexivity]. }
  pose proof (parse_keys_wf (read w index_key)) as Hwf.
  destruct (parse_keys (read w index_key)) as [| | | |xs|] eqn:Hkeys;
    try (right; cbn [set_status chain transactionStatus];
         split; [intros [_ ?]; discriminate | now apply index_ids_same]).
  destruct (mined w (S (sent w))).
  - left.
    rewrite (proj1 (loadRecords_chain _ _)), (proj2 (loadRecords_chain _ _)).
    cbn [set_status chain transactionStatus]. split; [now split|].
    unfold index_ids at 1. rewrite read_written.
    destruct (decide (index_key = index_key)); [|congruence].
    rewrite parse_keys_stringify.
    + unfold index_ids. now rewrite Hkeys.
    + inversion Hwf; subst. constructor. apply Forall_app. split; [assumption|].
      repeat constructor.
  - right. cbn [set_status chain transactionStatus].
    split; [intros [_ ?]; discriminate|].
    apply index_ids_same. now rewrite read_refused.
Qed.

(** C5.  A submission that goes through leaves in the index every id that
    was there, in the same order, followed by the new id; so after a sequence
    of submissions that all go through the index holds what it held before
    followed by the new ids; and a submission that fails leaves the ids of
    the index as they were, so whatever the outcomes the index only grows. *)
Theorem index_only_grows :
  (forall s form e app,
      submitted s form e app ->
      index_ids (chain (submitRecord s form e app))
      = index_ids (chain app) ++ [JStr (new_record_id e)]) /\
  (forall jobs app,
      all_submitted jobs app ->
      index_ids (chain (submit_all jobs app))
      = index_ids (chain app) ++ map (fun job => JStr (new_record_id (snd job))) jobs) /\
  (forall jobs app,
      exists added,
        index_ids (chain (submit_all jobs app)) = index_ids (chain app) ++ added).
Proof.
  assert (forall s form e app,
             submitted s form e app ->
             index_ids (chain (submitRecord s form e app))
             = index_ids (chain app) ++ [JStr (new_record_id e)]) as Hone.
  { intros s form e app Hsub.
    destruct (submitRecord_index s form e app) as [[_ H]|[H _]]; [exact H | contradiction]. }
  split; [exact Hone|]. split.
  - induction jobs as [|[[s form] e] jobs IH]; intros app Hall; cbn [submit_all map].
    + now rewrite app_nil_r.
    + destruct Hall as [Hsub Hall]. rewrite (IH _ Hall), (Hone _ _ _ _ Hsub).
      now rewrite <- app_assoc.
  - induction jobs as [|[[s form] e] jobs IH]; intros app; cbn [submit_all].
    + exists []. now rewrite app_nil_r.
    + destruct (IH (submitRecord s form e app)) as [added ->].
      destruct (submitRecord_index s form e app) as [[_ ->]|[_ ->]].
      * eexists. now rewrite <- app_assoc.
      * now eexists.
Qed.

(* ===================================================================== *)
(** * Reading back what a submission wrote                                 *)
(* ===================================================================== *)

Lemma new_record_data_wf (s : Session) (form : NewRecordData.t) (e : Entropy) :
  wf (new_record_data s form e).
Proof.
  unfold new_record_data. constructor.
  - cbn [map fst].
    repeat (apply NoDup_cons_2;
            [rewrite ?elem_of_cons, elem_of_nil; intuition discriminate|]).
    apply NoDup_nil_2.
  - repeat constructor.
Qed.

Lemma loadRecords_member (s : Session) (app : App) (ks : list json)
    (key : json) (r : TrainingRecord.t) :
  readOnly s = true -> available (chain app) = true ->
  iterate (parse_keys (read (chain app) index_key)) = Some ks ->
  In key ks -> load_record (chain app) key = Some r ->
  In r (records (loadRecords s app)).
Proof.
  intros Hro Hav Hks Hin Hload.
  rewrite (loadRecords_records s app ks Hro Hav Hks).
  eapply Permutation_in; [symmetry; apply sort_records_perm|].
  apply list_elem_of_In. apply list_elem_of_omap. exists key.
  split; [now apply list_elem_of_In | exact Hload].
Qed.

Lemma submitted_inv (s : Session) (form : NewRecordData.t) (e : Entropy) (app : App) :
  submitted s form e app ->
  exists xs,
    parse_keys (read (chain app) index_key) = JArr xs /\
    submitRecord s form e app
    = loadRecords s
        (set_status (Success "Cognitive data encrypted and stored securely!")
           (written index_key (stringify (JArr (xs ++ [JStr (new_record_id e)])))
              (written (record_key (JStr (new_record_id e)))
                 (stringify (new_record_data s form e)) (chain app)))
           app).
Proof.
  intros [Hp Hb]. revert Hb. unfold submitRecord. rewrite Hp. cbn [negb].
  rewrite submit_body_cases. cbv zeta.
  destruct (signer s); cbn [negb]; [|discriminate].
  destruct (mined (chain app) (sent (chain app))); cbn [negb]; [|discriminate].
  destruct (parse_keys (read (chain app) index_key)) as [| | | |xs|]; try discriminate.
  destruct (mined (chain app) (S (sent (chain app)))); [|discriminate].
  intros _. now exists xs.
Qed.

(** X13.  For a score that a Number holds exactly, the record object a
    submission writes is read back unchanged by [JSON.parse] from its
    serialization, and [loadRecords] decodes those bytes to a record with
    the fields that were written: the same encrypted data, timestamp, owner,
    category, score, plan and status; after a submission that went through,
    that record is among the listed ones. *)
Theorem record_round_trip (s : Session) (form : NewRecordData.t) (e : Entropy) :
  safe_integer (score_of (NewRecordData.cognitiveScore form)) ->
  let recordData := new_record_data s form e in
  let written_record (key : json) :=
    {| TrainingRecord.id := key;
       TrainingRecord.encryptedData :=
         Some (JStr ("FHE-ENCRYPTED-" +:+ btoa (stringify (NewRecordData.to_json form))));
       TrainingRecord.timestamp := Some (JNum (now_ts e / 1000));
       TrainingRecord.owner := Some (JStr (account s));
       TrainingRecord.category := Some (JStr (NewRecordData.category form));
       TrainingRecord.cognitiveScore := JNum (score_of (NewRecordData.cognitiveScore form));
       TrainingRecord.trainingPlan :=
         JStr (plan_of (score_of (NewRecordData.cognitiveScore form)));
       TrainingRecord.status := JStr "pending" |} in
  JSON_parse (stringify recordData) = Some recordData /\
  (forall (w : World) (key : json),
      read w (record_key key) = stringify recordData ->
      load_record w key = Some (written_record key)) /\
  (forall app : App,
      submitted s form e app -> readOnly s = true -> available (chain app) = true ->
      In (written_record (JStr (new_record_id e))) (records (submitRecord s form e app))).
Proof.
  intros _ recordData written_record.
  pose proof (new_record_data_wf s form e) as Hwf.
  assert (forall (w : World) (key : json),
             read w (record_key key) = stringify recordData ->
             load_record w key = Some (written_record key)) as Hload.
  { intros w key Hread. unfold load_record. rewrite Hread.
    rewrite stringify_nonempty, JSON_parse_stringify by exact Hwf.
    unfold recordData, new_record_data, written_record.
    cbn [field assoc String.eqb Ascii.eqb Bool.eqb].
    unfold or_else, truthy.
    rewrite plan_of_nonempty.
    rewrite (proj2 (Z.eqb_neq _ 0) (score_of_nonzero _)). reflexivity. }
  split; [now apply JSON_parse_stringify|]. split; [exact Hload|].
  intros app Hsub Hro Hav.
  destruct (submitted_inv _ _ _ _ Hsub) as (xs & Hkeys & ->).
  set (recordId := JStr (new_record_id e)).
  set (w1 := written (record_key recordId) (stringify (new_record_data s form e)) (chain app)).
  set (w2 := written index_key (stringify (JArr (xs ++ [recordId]))) w1).
  set (app2 := set_status (Success "Cognitive data encrypted and stored securely!") w2 app).
  assert (wf (JArr (xs ++ [recordId]))) as Hwfk.
  { pose proof (parse_keys_wf (read (chain app) index_key)) as H. rewrite Hkeys in H.
    inversion H; subst. constructor. apply Forall_app. split; [assumption|].
    repeat constructor. }
  apply (loadRecords_member s app2 (xs ++ [recordId]) recordId).
  - exact Hro.
  - exact Hav.
  - cbn [app2 set_status chain]. unfold w2. rewrite read_written.
    destruct (decide (index_key = index_key)); [|congruence].
    now rewrite parse_keys_stringify.
  - apply in_or_app. right. now left.
  - apply Hload. cbn [app2 set_status chain]. unfold w2. rewrite read_written.
    destruct (decide (index_key = record_key recordId)) as [E|].
    + exfalso. symmetry in E. now apply (record_key_not_index e).
    + unfold w1. rewrite read_written. now destruct (decide _).
Qed.


(* ===================================================================== *)
(** * Status transitions                                                   *)
(* ===================================================================== *)

Lemma assoc_obj_set_eq (k : string) (v : json) (o : list (string * json)) :
  assoc k (obj_set k v o) = Some v.
Proof.
  induction o as [|[k' v'] o IH]; cbn [obj_set assoc].
  - now rewrite String.eqb_refl.
  - destruct (String.eqb k k') eqn:E; cbn [assoc]; rewrite E; [reflexivity | exact IH].
Qed.

Lemma assoc_obj_set_ne (k k' : string) (v : json) (o : list (string * json)) :
  k' <> k -> assoc k' (obj_set k v o) = assoc k' o.
Proof.
  intros Hne. induction o as [|[k0 v0] o IH]; cbn [obj_set assoc].
  - now rewrite (proj2 (String.eqb_neq k' k) Hne).
  - destruct (String.eqb k k0) eqn:E; cbn [assoc].
    + apply String.eqb_eq in E. subst k0.
      now rewrite (proj2 (String.eqb_neq k' k) Hne).
    + now rewrite IH.
Qed.

Lemma transition_body_cases (s : Session) (newStatus : string) (recordId : json) (w : World) :
  transition_body s newStatus recordId w =
    if negb (signer s) then (Throws (Error "Failed to get contract with signer"), w)
    else if (String.length (read w (record_key recordId)) =? 0)%nat
    then (Throws (Error "Record not found"), w)
    else
      match JSON_parse (read w (record_key recordId)) with
      | None => (Throws SyntaxError, w)
      | Some recordData =>
          if mined w (sent w)
          then (Returns tt,
                written (record_key recordId)
                  (stringify (JObj (obj_set "status" (JStr newStatus)
                                      (own_properties recordData)))) w)
          else (Throws Rejected, refused w)
      end.
Proof.
  unfold transition_body. destruct (signer s); cbn [negb]; [|reflexivity].
  unfold bind, getData.
  destruct (String.length (read w (record_key recordId)) =? 0)%nat; [reflexivity|].
  destruct (JSON_parse (read w (record_key recordId))); [|reflexivity].
  unfold setData. destruct (mined w (sent w)); reflexivity.
Qed.

Lemma transition_not_found (s : Session) (newStatus message : string) (recordId : json)
    (app : App) :
  provider s = true -> signer s = true ->
  String.length (read (chain app) (record_key recordId)) = 0%nat ->
  transition s newStatus message recordId app
  = {| chain := chain app; records := records app;
       transactionStatus := Failure (Error "Record not found") |}.
Proof.
  intros Hp Hs Hlen. unfold transition. rewrite Hp. cbn [negb].
  rewrite transition_body_cases, Hs, Hlen. reflexivity.
Qed.

Lemma transition_rewrites (s : Session) (newStatus message : string) (recordId : json)
    (app : App) (fields : list (string * json)) :
  String.eqb newStatus "" = false ->
  provider s = true -> signer s = true ->
  mined (chain app) (sent (chain app)) = true ->
  JSON_parse (read (chain app) (record_key recordId)) = Some (JObj fields) ->
  let after := chain (transition s newStatus message recordId app) in
  storage after
  = <[record_key recordId := stringify (JObj (obj_set "status" (JStr newStatus) fields))]>
      (storage (chain app)) /\
  (forall key, key <> record_key recordId -> read after key = read (chain app) key) /\
  (exists fields',
      JSON_parse (read after (record_key recordId)) = Some (JObj fields') /\
      assoc "status" fields' = Some (JStr newStatus) /\
      forall name, name <> "status" -> assoc name fields' = assoc name fields) /\
  (forall r,
      load_record (chain app) recordId = Some r ->
      load_record after recordId = Some (with_status r (JStr newStatus))).
Proof.
  intros Hst Hp Hs Hm Hparse after.
  set (updated := JObj (obj_set "status" (JStr newStatus) fields)).
  assert (after = written (record_key recordId) (stringify updated) (chain app)) as Hafter.
  { unfold after, transition. rewrite Hp. cbn [negb].
    rewrite transition_body_cases, Hs, Hparse, Hm. cbn [negb own_properties].
    destruct (String.length (read (chain app) (record_key recordId)) =? 0)%nat eqn:E.
    - apply Nat.eqb_eq in E.
      destruct (read (chain app) (record_key recordId)); [discriminate Hparse | discriminate E].
    - now rewrite (proj1 (loadRecords_chain _ _)). }
  assert (wf updated) as Hwf.
  { pose proof (JSON_parse_wf _ _ Hparse) as H. inversion H; subst.
    constructor; [now apply obj_set_nodup | apply obj_set_forall; [constructor | assumption]]. }
  assert (read after (record_key recordId) = stringify updated) as Hread.
  { rewrite Hafter, read_written. now destruct (decide _). }
  rewrite Hafter at 1. split; [reflexivity|]. split; [|split].
  - intros key Hne. rewrite Hafter, read_written.
    destruct (decide _); [congruence | reflexivity].
  - exists (obj_set "status" (JStr newStatus) fields). rewrite Hread.
    split; [now apply JSON_parse_stringify|].
    split; [apply assoc_obj_set_eq | intros name Hne; now apply assoc_obj_set_ne].
  - intros r. unfold load_record. rewrite Hread, Hparse.
    rewrite stringify_nonempty, JSON_parse_stringify by exact Hwf.
    destruct (0 <? _)%nat; [|discriminate].
    intros [= <-]. unfold updated, with_status. cbn [field].
    rewrite assoc_obj_set_eq, !assoc_obj_set_ne by discriminate.
    cbn [TrainingRecord.id TrainingRecord.encryptedData TrainingRecord.timestamp
         TrainingRecord.owner TrainingRecord.category TrainingRecord.cognitiveScore
         TrainingRecord.trainingPlan].
    unfold or_else at 3. unfold truthy. now rewrite Hst.
Qed.

(** C7.  On a stored record object, [activateTraining] writes back under the
    record's own key the object with status "active" and [completeTraining]
    the object with status "completed"; every other property of the object,
    and so every other field of the record, is as before, and no other key of
    the storage is written. *)
Theorem status_transition_frame :
  rewrites_status activateTraining "active" /\
  rewrites_status completeTraining "completed".
Proof.
  split; intros s recordId app fields Hp Hs Hm Hparse;
    now apply transition_rewrites.
Qed.

(** C8.  When the bytes stored for the record are empty, [activateTraining]
    and [completeTraining] fail with the error "Record not found", send no
    transaction, and leave the storage and the listed records as they were. *)
Theorem status_transition_not_found :
  fails_not_found activateTraining /\ fails_not_found completeTraining.
Proof.
  split; intros s recordId app Hp Hs Hlen; now apply transition_not_found.
Qed.

(* ===================================================================== *)
(** * The statements at concrete inputs                                    *)
(* ===================================================================== *)

Example parse_examples :
  JSON_parse " [1, -20 , [ ], true , null] "
  = Some (JArr [JNum 1; JNum (-20); JArr []; JBool true; JNull]) /\
  JSON_parse "[01]" = None /\ JSON_parse "[1,]" = None /\ JSON_parse "{oops" = None /\
  JSON_parse (stringify (JObj [("a", JStr "x\y"); ("a", JNum 2)]))
  = Some (JObj [("a", JNum 2)]).
Proof. repeat split; reflexivity. Qed.

Example parseInt_examples :
  parseInt "  42px" = Some 42 /\ parseInt "-7" = Some (-7) /\ parseInt "45.7" = Some 45 /\
  parseInt "1e3" = Some 1 /\ parseInt "0x1F" = Some 31 /\ parseInt "007" = Some 7 /\
  parseInt "" = None /\ parseInt "abc" = None /\ parseInt "-0" = Some 0.
Proof. repeat split; reflexivity. Qed.

Example btoa_examples :
  btoa "Hello, World!" = "SGVsbG8sIFdvcmxkIQ==" /\ btoa "ab" = "YWI=" /\ btoa "a" = "YQ==".
Proof. repeat split; reflexivity. Qed.

Example submit_then_activate :
  let app := submit_all demo_jobs demo_app in
  let first := JStr "1700000000123-k3j9x1a" in
  let second := JStr "1700000005123-0zq8w2m" in
  index_ids (chain app) = [first; second] /\
  map TrainingRecord.id (records app) = [second; first] /\
  map TrainingRecord.cognitiveScore (records app) = [JNum 12; JNum 85] /\
  map TrainingRecord.trainingPlan (records app)
  = [JStr "Basic Cognitive Enhancement"; JStr "Advanced Neural Development"] /\
  map TrainingRecord.status (records (activateTraining demo_session first app))
  = [JStr "pending"; JStr "active"] /\
  transactionStatus (completeTraining demo_session (JStr "unknown") app)
  = Failure (Error "Record not found").
Proof. vm_compute. repeat split; reflexivity. Qed.

Example submit_over_broken_index :
  let broken (bytes : string) : App :=
    {| chain := {| storage := {[ "training_keys" := bytes ]}; available := true;
                   mined := fun _ => true; sent := 0 |};
       records := []; transactionStatus := Idle |} in
  let submit (app : App) : App :=
    submitRecord demo_session (demo_form "40") (demo_entropy 1700000000123 "k3j9x1a") app in
  read (chain (submit (broken "{oops"))) "training_keys"
  = stringify (JArr [JStr "1700000000123-k3j9x1a"]) /\
  read (chain (submit (broken (stringify (JArr [JStr "old"]))))) "training_keys"
  = stringify (JArr [JStr "old"; JStr "1700000000123-k3j9x1a"]) /\
  transactionStatus (submit (broken "null")) = Failure TypeError /\
  read (chain (submit (broken "null"))) "training_keys" = "null" /\
  read (chain (submit (broken "null"))) "training_1700000000123-k3j9x1a"
  = stringify (new_record_data demo_session (demo_form "40")
                 (demo_entropy 1700000000123 "k3j9x1a")).
Proof. vm_compute. repeat split; reflexivity. Qed.

Example generatePlan_underflow :
  generatePlan true 7 [100; 101; 0; 0] demo_state = Panic 17 /\
  generatePlan true 7 [4294967295; 0; 0; 0] demo_state = Panic 17 /\
  generatePlan true 8 [100; 0; 0; 0] demo_state = Revert "Invalid request".
Proof. repeat split; reflexivity. Qed.

Lemma plan_of_score_witness :
  plan_of 12 = "Basic Cognitive Enhancement" /\
  plan_of 55 = "Intermediate Brain Training" /\
  plan_of 100 = "Advanced Neural Development".
Proof.
  pose proof (proj1 plan_of_score) as H.
  split; [apply (H 12); lia|].
  split; [apply (H 55); lia | apply (H 100); lia].
Defined.

Lemma default_score_witness :
  field (new_record_data demo_session (demo_form "0") (demo_entropy 1 "a")) "cognitiveScore"
  = Some (JNum 50) /\
  field (new_record_data demo_session (demo_form "0") (demo_entropy 1 "a")) "trainingPlan"
  = Some (JStr "Intermediate Brain Training").
Proof.
  apply (proj1 default_score demo_session (demo_form "0") (demo_entropy 1 "a")).
  right. reflexivity.
Defined.

Lemma generatePlan_intensity_witness :
  exists s',
    generatePlan true 7 [100; 0; 35; 80] demo_state = Done s' /\
    recommendations s' !! 1
    = Some {| memoryTraining := 0; attentionTraining := 100;
              processingTraining := 65; flexibilityTraining := 20;
              isGenerated := true |} /\
    trainingPlanCount s' = 1.
Proof.
  apply (proj1 (proj2 generatePlan_intensity) 7 1 100 0 35 80 [] demo_state);
    (reflexivity || lia).
Defined.


Lemma submitRecord_appends_witness :
  read (chain (submitRecord demo_session (demo_form "85")
                 (demo_entropy 1700000000123 "k3j9x1a") demo_app)) "training_keys"
  = stringify (JArr [JStr "1700000000123-k3j9x1a"]).
Proof.
  apply (submitRecord_appends demo_session (demo_form "85")
           (demo_entropy 1700000000123 "k3j9x1a") demo_app
           eq_refl eq_refl eq_refl eq_refl).
  left. reflexivity.
Defined.

Lemma index_only_grows_witness :
  index_ids (chain (submit_all demo_jobs demo_app))
  = [JStr "1700000000123-k3j9x1a"; JStr "1700000005123-0zq8w2m"].
Proof.
  apply (proj1 (proj2 index_only_grows) demo_jobs demo_app).
  vm_compute. repeat split; reflexivity.
Defined.

Lemma record_round_trip_witness :
  In {| TrainingRecord.id := JStr "1700000000123-k3j9x1a";
        TrainingRecord.encryptedData :=
          Some (JStr ("FHE-ENCRYPTED-"
                      +:+ btoa (stringify (NewRecordData.to_json (demo_form "85")))));
        TrainingRecord.timestamp := Some (JNum 1700000000);
        TrainingRecord.owner := Some (JStr "0x5aAe");
        TrainingRecord.category := Some (JStr "Memory");
        TrainingRecord.cognitiveScore := JNum 85;
        TrainingRecord.trainingPlan := JStr "Advanced Neural Development";
        TrainingRecord.status := JStr "pending" |}
     (records (submitRecord demo_session (demo_form "85")
                 (demo_entropy 1700000000123 "k3j9x1a") demo_app)).
Proof.
  assert (safe_integer (score_of (NewRecordData.cognitiveScore (demo_form "85")))) as Hsafe
    by (vm_compute; split; discriminate).
  apply (proj2 (proj2 (record_round_trip demo_session (demo_form "85")
                         (demo_entropy 1700000000123 "k3j9x1a") Hsafe)) demo_app).
  - split; reflexivity.
  - reflexivity.
  - reflexivity.
Defined.

Lemma status_transition_frame_witness :
  load_record (chain (activateTraining demo_session (JStr "d") demo_listing)) (JStr "d")
  = Some {| TrainingRecord.id := JStr "d";
            TrainingRecord.encryptedData := None;
            TrainingRecord.timestamp := Some (JNum 9);
            TrainingRecord.owner := None;
            TrainingRecord.category := None;
            TrainingRecord.cognitiveScore := JNum 0;
            TrainingRecord.trainingPlan := JStr "Custom FHE Plan";
            TrainingRecord.status := JStr "active" |} /\
  load_record (chain (completeTraining demo_session (JStr "a") demo_listing)) (JStr "a")
  = Some {| TrainingRecord.id := JStr "a";
            TrainingRecord.encryptedData := None;
            TrainingRecord.timestamp := Some (JNum 5);
            TrainingRecord.owner := None;
            TrainingRecord.category := None;
            TrainingRecord.cognitiveScore := JNum 0;
            TrainingRecord.trainingPlan := JStr "Custom FHE Plan";
            TrainingRecord.status := JStr "completed" |}.
Proof.
  split.
  - destruct (proj1 status_transition_frame demo_session (JStr "d") demo_listing
                [("timestamp", JNum 9); ("status", JStr "active")]
                eq_refl eq_refl eq_refl eq_refl) as (_ & _ & _ & H).
    apply (H _ eq_refl).
  - destruct (proj2 status_transition_frame demo_session (JStr "a") demo_listing
                [("timestamp", JNum 5)] eq_refl eq_refl eq_refl eq_refl) as (_ & _ & _ & H).
    apply (H _ eq_refl).
Defined.

Lemma status_transition_not_found_witness :
  activateTraining demo_session (JStr "c") demo_listing
  = {| chain := chain demo_listing; records := [];
       transactionStatus := Failure (Error "Record not found") |} /\
  completeTraining demo_session (JStr "c") demo_listing
  = {| chain := chain demo_listing; records := [];
       transactionStatus := Failure (Error "Record not found") |}.
Proof.
  split.
  - apply (proj1 status_transition_not_found demo_session (JStr "c") demo_listing);
      reflexivity.
  - apply (proj2 status_transition_not_found demo_session (JStr "c") demo_listing);
      reflexivity.
Defined.

(* ===================================================================== *)
(** * Further properties of the client                                     *)
(* ===================================================================== *)

Lemma stringify_not_empty (v : json) : stringify v <> EmptyString.
Proof. destruct (stringify_starts v) as (c & r & -> & _). discriminate. Qed.

Lemma nothing_emptied_refl (w : World) : nothing_emptied w w.
Proof. now intros key. Qed.

Lemma nothing_emptied_trans (w1 w2 w3 : World) :
  nothing_emptied w1 w2 -> nothing_emptied w2 w3 -> nothing_emptied w1 w3.
Proof. intros H12 H23 key H. now apply H23, H12. Qed.

Lemma nothing_emptied_written (key : string) (v : json) (w : World) :
  nothing_emptied w (written key (stringify v) w).
Proof.
  intros key' H. rewrite read_written.
  destruct (decide _); [apply stringify_not_empty | exact H].
Qed.

Lemma nothing_emptied_refused (w : World) : nothing_emptied w (refused w).
Proof. now intros key. Qed.

(** Where a submission leaves the chain. *)
Lemma submitRecord_outcomes (s : Session) (form : NewRecordData.t) (e : Entropy) (app : App) :
  let w := chain app in
  let w1 := written (record_key (JStr (new_record_id e)))
              (stringify (new_record_data s form e)) w in
  let after := submitRecord s form e app in
  (submitted s form e app /\
   exists xs, parse_keys (read w index_key) = JArr xs /\
     chain after
     = written index_key (stringify (JArr (xs ++ [JStr (new_record_id e)]))) w1) \/
  (~ submitted s form e app /\ records after = records app /\
   (after = app \/
    exists x, transactionStatus after = Failure x /\
      (chain after = w \/ chain after = refused w \/
       chain after = w1 \/ chain after = refused w1))).
Proof.
  intros w w1 after.
  destruct (submitRecord_index s form e app) as [[Hsub _]|[Hnot _]].
  - left. split; [exact Hsub|].
    destruct (submitted_inv _ _ _ _ Hsub) as (xs & Hkeys & Heq).
    exists xs. split; [exact Hkeys|].
    unfold after. rewrite Heq. now rewrite (proj1 (loadRecords_chain _ _)).
  - right. split; [exact Hnot|]. revert Hnot. unfold submitted, after, submitRecord.
    destruct (provider s); cbn [negb]; [|now intros; split; [|left]].
    rewrite submit_body_cases. cbv zeta. fold w. fold w1.
    destruct (signer s); cbn [negb];
      [|intros _; split; [reflexivity | right; eexists; split; [reflexivity | now left]]].
    destruct (mined w (sent w)); cbn [negb];
      [|intros _; split; [reflexivity | right; eexists; split;
                          [reflexivity | now right; left]]].
    destruct (parse_keys (read w index_key));
      try (intros _; split; [reflexivity | right; eexists; split;
                             [reflexivity | now right; right; left]]).
    destruct (mined w (S (sent w))).
    + intros Hnot. exfalso. apply Hnot. split; [reflexivity|].
      now rewrite (proj2 (loadRecords_chain _ _)).
    + intros _. split; [reflexivity|]. right. eexists. split; [reflexivity|].
      now right; right; right.
Qed.

Lemma omap_length_le {A B : Type} (f : A -> option B) (l : list A) :
  (length (omap f l) <= length l)%nat.
Proof.
  induction l as [|x l IH]; [reflexivity|]. cbn [omap list_omap length].
  destruct (f x); cbn [length]; lia.
Qed.

(** X1.  [loadRecords] lists nothing that the index does not name: every
    listed record carries an id of the index and is what the bytes under
    that id decode to, and there are at most as many listed records as the
    index has entries. *)
Theorem listed_are_indexed (s : Session) (app : App) (ks : list json) :
  readOnly s = true -> available (chain app) = true ->
  iterate (parse_keys (read (chain app) index_key)) = Some ks ->
  (forall r, In r (records (loadRecords s app)) ->
     In (TrainingRecord.id r) ks /\
     load_record (chain app) (TrainingRecord.id r) = Some r) /\
  (length (records (loadRecords s app)) <= length ks)%nat.
Proof.
  intros Hro Hav Hks. rewrite (loadRecords_records s app ks Hro Hav Hks). split.
  - intros r Hin. eapply Permutation_in in Hin; [|apply sort_records_perm].
    apply list_elem_of_In, list_elem_of_omap in Hin as (key & Hkey & Hload).
    rewrite (load_record_id _ _ _ Hload). split; [now apply list_elem_of_In | exact Hload].
  - rewrite (Permutation_length (sort_records_perm _)). apply omap_length_le.
Qed.

(** X2.  No rollback: when the first write of a submission is mined and the
    second is not, the record stays stored under its key, the index bytes are
    as before, the banner is an error and the listed records are untouched;
    unless the index already named the id, no later [loadRecords] lists the
    record. *)
Theorem rejected_index_write_leaves_orphan
    (s : Session) (form : NewRecordData.t) (e : Entropy) (app : App) :
  provider s = true -> signer s = true ->
  mined (chain app) (sent (chain app)) = true ->
  mined (chain app) (S (sent (chain app))) = false ->
  let recordId := JStr (new_record_id e) in
  let after := submitRecord s form e app in
  read (chain after) (record_key recordId) = stringify (new_record_data s form e) /\
  read (chain after) index_key = read (chain app) index_key /\
  records after = records app /\
  (exists x, transactionStatus after = Failure x) /\
  (forall (s' : Session) (ks : list json),
      readOnly s' = true -> available (chain app) = true ->
      iterate (parse_keys (read (chain app) index_key)) = Some ks ->
      ~ In recordId ks ->
      forall r, In r (records (loadRecords s' after)) -> TrainingRecord.id r <> recordId).
Proof.
  intros Hp Hs Hm1 Hm2 recordId after.
  set (w1 := written (record_key recordId) (stringify (new_record_data s form e)) (chain app)).
  assert (read w1 index_key = read (chain app) index_key) as Hidx
    by apply read_new_record_index.
  assert (read w1 (record_key recordId) = stringify (new_record_data s form e)) as Hrec.
  { unfold w1. rewrite read_written. now destruct (decide _). }
  assert ((chain after = w1 \/ chain after = refused w1) /\ records after = records app /\
          exists x, transactionStatus after = Failure x) as (Hchain & Hrecs & Hfail).
  { unfold after, submitRecord. rewrite Hp. cbn [negb].
    rewrite submit_body_cases. cbv zeta. rewrite Hs, Hm1, Hm2. cbn [negb]. fold recordId. fold w1.
    destruct (parse_keys (read (chain app) index_key));
      cbn [set_status chain records transactionStatus]; split; eauto. }
  assert (forall key, read (chain after) key = read w1 key) as Hread.
  { intros key. destruct Hchain as [-> | ->]; reflexivity. }
  rewrite !Hread. split; [exact Hrec|]. split; [exact Hidx|].
  split; [exact Hrecs|]. split; [exact Hfail|].
  intros s' ks Hro Hav Hks Hnot r Hin Hid.
  assert (available (chain after) = true) as Hav'.
  { destruct Hchain as [-> | ->]; exact Hav. }
  assert (iterate (parse_keys (read (chain after) index_key)) = Some ks) as Hks'.
  { now rewrite Hread, Hidx. }
  rewrite (loadRecords_records s' after ks Hro Hav' Hks') in Hin.
  eapply Permutation_in in Hin; [|apply sort_records_perm].
  apply list_elem_of_In, list_elem_of_omap in Hin as (key & Hkey & Hload).
  rewrite (load_record_id _ _ _ Hload) in Hid. subst key.
  apply Hnot. now apply list_elem_of_In.
Qed.

(** X3.  An index whose bytes parse to a value that is no array blocks the
    store: no submission goes through from then on, and whatever is
    submitted the index bytes stay as they are. *)
Theorem broken_index_blocks (app : App) :
  (forall xs, parse_keys (read (chain app) index_key) <> JArr xs) ->
  forall jobs,
    read (chain (submit_all jobs app)) index_key = read (chain app) index_key /\
    (forall s form e, ~ submitted s form e (submit_all jobs app)).
Proof.
  intros Hbad jobs. revert app Hbad.
  assert (forall app,
             (forall xs, parse_keys (read (chain app) index_key) <> JArr xs) ->
             forall s form e,
               ~ submitted s form e app /\
               read (chain (submitRecord s form e app)) index_key = read (chain app) index_key)
    as Hstep.
  { intros app Hbad s form e.
    destruct (submitRecord_outcomes s form e app) as [(_ & xs & Hxs & _)|(Hnot & _ & Hwhere)].
    - now destruct (Hbad xs).
    - split; [exact Hnot|].
      destruct Hwhere as [-> | (x & _ & [-> | [-> | [-> | ->]]])];
        try reflexivity; try rewrite read_refused; apply read_new_record_index. }
  induction jobs as [|[[s form] e] jobs IH]; intros app Hbad; cbn [submit_all].
  - split; [reflexivity|]. intros s form e. now apply Hstep.
  - destruct (Hstep app Hbad s form e) as [_ Hsame].
    destruct (IH (submitRecord s form e app)) as [Hidx Hnone].
    + intros xs. rewrite Hsame. apply Hbad.
    + split; [now rewrite Hidx | exact Hnone].
Qed.

(** Where a status transition leaves the chain, the banner and the list. *)
Lemma transition_outcomes (s : Session) (newStatus message : string) (recordId : json)
    (app : App) :
  let key := record_key recordId in
  let after := transition s newStatus message recordId app in
  after = app \/
  (exists x, transactionStatus after = Failure x /\ records after = records app /\
     (chain after = chain app \/ chain after = refused (chain app))) \/
  (exists recordData,
      JSON_parse (read (chain app) key) = Some recordData /\
      read (chain app) key <> EmptyString /\
      mined (chain app) (sent (chain app)) = true /\
      transactionStatus after = Success message /\
      chain after
      = written key
          (stringify (JObj (obj_set "status" (JStr newStatus) (own_properties recordData))))
          (chain app)).
Proof.
  intros key after. unfold after, transition.
  destruct (provider s); cbn [negb]; [|now left].
  right. rewrite transition_body_cases. fold key.
  destruct (signer s); cbn [negb];
    [|left; eexists; split; [reflexivity | split; [reflexivity | now left]]].
  destruct (String.length (read (chain app) key) =? 0)%nat eqn:Elen;
    [left; eexists; split; [reflexivity | split; [reflexivity | now left]]|].
  destruct (JSON_parse (read (chain app) key)) as [recordData|] eqn:Eparse;
    [|left; eexists; split; [reflexivity | split; [reflexivity | now left]]].
  destruct (mined (chain app) (sent (chain app))) eqn:Em;
    [|left; eexists; split; [reflexivity | split; [reflexivity | now right]]].
  right. exists recordData. split; [reflexivity|].
  split; [intros E; rewrite E in Elen; discriminate|]. split; [reflexivity|].
  rewrite (proj1 (loadRecords_chain _ _)), (proj2 (loadRecords_chain _ _)).
  now split.
Qed.

(** X4.  All or nothing: [activateTraining] and [completeTraining] either
    write the one updated record under its key and report success, or report
    an error and leave the storage and the listed records as they were (or,
    without a wallet, do nothing at all). *)
Theorem transition_all_or_nothing (s : Session) (recordId : json) (app : App) :
  let key := record_key recordId in
  let outcome_of (after : App) (newStatus message : string) :=
    after = app \/
    (exists x, transactionStatus after = Failure x /\ records after = records app /\
       storage (chain after) = storage (chain app)) \/
    (exists recordData,
        JSON_parse (read (chain app) key) = Some recordData /\
        transactionStatus after = Success message /\
        storage (chain after)
        = <[key := stringify (JObj (obj_set "status" (JStr newStatus)
                                      (own_properties recordData)))]>
            (storage (chain app))) in
  outcome_of (activateTraining s recordId app) "active" "Training plan activated with FHE!" /\
  outcome_of (completeTraining s recordId app) "completed"
    "Training completed with FHE verification!".
Proof.
  intros key outcome_of.
  assert (forall newStatus message,
             outcome_of (transition s newStatus message recordId app) newStatus message) as H.
  { intros newStatus message. unfold outcome_of.
    destruct (transition_outcomes s newStatus message recordId app)
      as [Hsame|[(x & Hb & Hr & Hc)|(recordData & Hparse & _ & _ & Hb & Hc)]].
    - now left.
    - right. left. exists x. split; [exact Hb|]. split; [exact Hr|].
      destruct Hc as [-> | ->]; reflexivity.
    - right. right. exists recordData. split; [exact Hparse|]. split; [exact Hb|].
      now rewrite Hc. }
  split; apply H.
Qed.

Lemma perform_nothing_emptied (a : action) (app : App) :
  nothing_emptied (chain app) (chain (perform a app)).
Proof.
  assert (forall s newStatus message recordId,
             nothing_emptied (chain app) (chain (transition s newStatus message recordId app)))
    as Htrans.
  { intros s newStatus message recordId.
    destruct (transition_outcomes s newStatus message recordId app)
      as [->|[(x & _ & _ & [-> | ->])|(recordData & _ & _ & _ & _ & ->)]];
      auto using nothing_emptied_refl, nothing_emptied_refused, nothing_emptied_written. }
  destruct a as [s form e|s recordId|s recordId|s]; cbn [perform].
  - destruct (submitRecord_outcomes s form e app)
      as [(_ & xs & _ & ->)|(_ & _ & [-> | (x & _ & [-> | [-> | [-> | ->]]])])];
      auto using nothing_emptied_refl, nothing_emptied_refused, nothing_emptied_written.
    + eapply nothing_emptied_trans; apply nothing_emptied_written.
    + eapply nothing_emptied_trans;
        [apply nothing_emptied_written | apply nothing_emptied_refused].
  - apply Htrans.
  - apply Htrans.
  - rewrite (proj1 (loadRecords_chain _ _)). apply nothing_emptied_refl.
Qed.

(** X5.  The client never deletes: whatever the user does, in whatever order
    and with whatever outcomes, a key that holds bytes keeps holding bytes. *)
Theorem stored_bytes_stay (actions : list action) (app : App) :
  nothing_emptied (chain app) (chain (perform_all actions app)).
Proof.
  revert app. induction actions as [|a actions IH]; intros app; cbn [perform_all fold_left].
  - apply nothing_emptied_refl.
  - eapply nothing_emptied_trans; [apply perform_nothing_emptied | apply IH].
Qed.

Lemma JSON_parse_brace (rest : string) (v : json) :
  JSON_parse (String "{" rest) = Some v -> exists fields, v = JObj fields.
Proof.
  unfold JSON_parse. cbn [parse_value skip_ws]. simpl is_ws. cbv iota.
  simpl Ascii.eqb. cbv iota.
  destruct (next_is "}" rest) as [r|].
  - destruct (skip_ws r); [|discriminate]. intros [= <-]. now eexists.
  - destruct (parse_members _ rest) as [[ms r]|]; [|discriminate].
    destruct (skip_ws r); [|discriminate]. intros [= <-]. now eexists.
Qed.

Lemma index_ids_object (w : World) (fields : list (string * json)) :
  read w index_key = stringify (JObj fields) -> index_ids w = [].
Proof.
  intros H. unfold index_ids, parse_keys. rewrite H.
  destruct (0 <? _)%nat; [|reflexivity].
  destruct (JSON_parse (stringify (JObj fields))) as [v|] eqn:E; [|reflexivity].
  cbn [stringify] in E. apply JSON_parse_brace in E as [fs ->]. reflexivity.
Qed.

Lemma perform_indexed_are_stored (a : action) (app : App) :
  indexed_are_stored (chain app) -> indexed_are_stored (chain (perform a app)).
Proof.
  intros Hinv.
  assert (forall w', read w' index_key = read (chain app) index_key ->
                     nothing_emptied (chain app) w' -> indexed_are_stored w') as Hsame.
  { intros w' Hidx Hkept key Hin. apply Hkept, Hinv.
    now rewrite <- (index_ids_same (chain app) w' Hidx). }
  assert (forall s newStatus message recordId,
             indexed_are_stored (chain (transition s newStatus message recordId app)))
    as Htrans.
  { intros s newStatus message recordId.
    destruct (transition_outcomes s newStatus message recordId app)
      as [->|[(x & _ & _ & [-> | ->])|(recordData & _ & _ & _ & _ & ->)]]; try exact Hinv.
    destruct (decide (record_key recordId = index_key)) as [E|E].
    - intros key Hin. rewrite (index_ids_object _ (obj_set "status" (JStr newStatus)
                                                     (own_properties recordData))) in Hin.
      + destruct Hin.
      + rewrite read_written. now destruct (decide _).
    - apply Hsame; [|apply nothing_emptied_written].
      rewrite read_written. now destruct (decide _). }
  destruct a as [s form e|s recordId|s recordId|s]; cbn [perform].
  - destruct (submitRecord_index s form e app) as [[Hsub Hids]|[_ Hids]].
    + intros key Hin. rewrite Hids in Hin. apply in_app_or in Hin as [Hin|[<-|[]]].
      * now apply (perform_nothing_emptied (Submit s form e) app), Hinv.
      * destruct (submitRecord_outcomes s form e app) as [(_ & xs & _ & ->)|(Hnot & _)];
          [|contradiction].
        rewrite read_written. destruct (decide _); [apply stringify_not_empty|].
        rewrite read_written. destruct (decide _); [apply stringify_not_empty | congruence].
    + intros key Hin. rewrite Hids in Hin.
      now apply (perform_nothing_emptied (Submit s form e) app), Hinv.
  - apply Htrans.
  - apply Htrans.
  - now rewrite (proj1 (loadRecords_chain _ _)).
Qed.

(** X6.  The client keeps the invariant of the store: when every id of the
    index has bytes under its key, this is still so after anything the user
    does, failed transactions included (a record is written before its id is
    indexed, and nothing is ever emptied). *)
Theorem indexed_stay_stored (actions : list action) (app : App) :
  indexed_are_stored (chain app) ->
  indexed_are_stored (chain (perform_all actions app)).
Proof.
  revert app. induction actions as [|a actions IH]; intros app Hinv;
    cbn [perform_all fold_left]; [exact Hinv|].
  apply IH. now apply perform_indexed_are_stored.
Qed.

Lemma obj_set_twice (k : string) (v1 v2 : json) (o : list (string * json)) :
  obj_set k v2 (obj_set k v1 o) = obj_set k v2 o.
Proof.
  induction o as [|[k' v'] o IH]; cbn [obj_set].
  - now rewrite String.eqb_refl.
  - destruct (String.eqb k k') eqn:E; cbn [obj_set]; rewrite E; [reflexivity|].
    now rewrite IH.
Qed.

Lemma transition_chain (s : Session) (newStatus message : string) (recordId : json)
    (app : App) (fields : list (string * json)) :
  provider s = true -> signer s = true ->
  mined (chain app) (sent (chain app)) = true ->
  JSON_parse (read (chain app) (record_key recordId)) = Some (JObj fields) ->
  chain (transition s newStatus message recordId app)
  = written (record_key recordId)
      (stringify (JObj (obj_set "status" (JStr newStatus) fields))) (chain app).
Proof.
  intros Hp Hs Hm Hparse.
  destruct (transition_outcomes s newStatus message recordId app)
    as [Hsame|[(x & Hb & _)|(recordData & Hparse' & _ & _ & _ & ->)]].
  - exfalso. revert Hsame. unfold transition. rewrite Hp. cbn [negb].
    rewrite transition_body_cases, Hs, Hparse, Hm. cbn [negb].
    destruct (String.length _ =? 0)%nat eqn:E.
    + apply Nat.eqb_eq in E.
      destruct (read (chain app) (record_key recordId)); [discriminate Hparse | discriminate E].
    + intros Hsame. apply (f_equal (fun a => sent (chain a))) in Hsame.
      rewrite (proj1 (loadRecords_chain _ _)) in Hsame. cbn in Hsame. lia.
  - exfalso. revert Hb. unfold transition. rewrite Hp. cbn [negb].
    rewrite transition_body_cases, Hs, Hparse, Hm. cbn [negb].
    destruct (String.length _ =? 0)%nat eqn:E.
    + apply Nat.eqb_eq in E.
      destruct (read (chain app) (record_key recordId)); [discriminate Hparse | discriminate E].
    + rewrite (proj2 (loadRecords_chain _ _)). discriminate.
  - rewrite Hparse in Hparse'. now injection Hparse' as <-.
Qed.

Lemma transition_twice (s : Session) (st1 m1 st2 m2 : string) (recordId : json)
    (app : App) (fields : list (string * json)) :
  provider s = true -> signer s = true ->
  mined (chain app) (sent (chain app)) = true ->
  mined (chain app) (S (sent (chain app))) = true ->
  JSON_parse (read (chain app) (record_key recordId)) = Some (JObj fields) ->
  storage (chain (transition s st2 m2 recordId (transition s st1 m1 recordId app)))
  = <[record_key recordId := stringify (JObj (obj_set "status" (JStr st2) fields))]>
      (storage (chain app)).
Proof.
  intros Hp Hs Hm1 Hm2 Hparse.
  pose proof (transition_chain s st1 m1 recordId app fields Hp Hs Hm1 Hparse) as H1.
  assert (wf (JObj (obj_set "status" (JStr st1) fields))) as Hwf.
  { pose proof (JSON_parse_wf _ _ Hparse) as H. inversion H; subst.
    constructor; [now apply obj_set_nodup | apply obj_set_forall; [constructor | assumption]]. }
  rewrite (transition_chain s st2 m2 recordId _ (obj_set "status" (JStr st1) fields) Hp Hs).
  - rewrite H1. cbn [written storage]. rewrite insert_insert_eq. now rewrite obj_set_twice.
  - rewrite H1. exact Hm2.
  - rewrite H1, read_written. destruct (decide _); [|congruence].
    now apply JSON_parse_stringify.
Qed.

(** X7.  The last transition wins, whatever the stored status: completing
    after activating stores the completed record, activating twice stores
    what activating once stores, and activating a completed record stores it
    as active again (nothing checks the status that is stored). *)
Theorem last_transition_wins (s : Session) (recordId : json) (app : App)
    (fields : list (string * json)) :
  provider s = true -> signer s = true ->
  mined (chain app) (sent (chain app)) = true ->
  mined (chain app) (S (sent (chain app))) = true ->
  JSON_parse (read (chain app) (record_key recordId)) = Some (JObj fields) ->
  let stored (newStatus : string) :=
    <[record_key recordId := stringify (JObj (obj_set "status" (JStr newStatus) fields))]>
      (storage (chain app)) in
  storage (chain (completeTraining s recordId (activateTraining s recordId app)))
  = stored "completed" /\
  storage (chain (activateTraining s recordId (activateTraining s recordId app)))
  = stored "active" /\
  storage (chain (activateTraining s recordId (completeTraining s recordId app)))
  = stored "active" /\
  storage (chain (activateTraining s recordId app)) = stored "active".
Proof.
  intros Hp Hs Hm1 Hm2 Hparse stored.
  repeat split; try (now apply transition_twice).
  unfold activateTraining. now erewrite transition_chain by eassumption.
Qed.

(* ===================================================================== *)
(** * Statistics, search and the detail dialog                             *)
(* ===================================================================== *)

(** X8.  The three counters of the dashboard never count a record twice:
    together they are at most the number of records, and exactly that number
    when every status is one of pending, active and completed. *)
Theorem status_counts (records : list TrainingRecord.t) :
  (activeCount records + completedCount records + pendingCount records
   <= length records)%nat /\
  (Forall (fun r => TrainingRecord.status r = JStr "pending" \/
                    TrainingRecord.status r = JStr "active" \/
                    TrainingRecord.status r = JStr "completed") records ->
   (activeCount records + completedCount records + pendingCount records
    = length records)%nat).
Proof.
  assert (forall r st1 st2, st1 <> st2 ->
            status_is st1 r = true -> status_is st2 r = true -> False) as Hexcl.
  { intros r st1 st2 Hne. unfold status_is.
    destruct (TrainingRecord.status r) as [|?|?|st|?|?]; try discriminate.
    intros H1 H2. apply String.eqb_eq in H1, H2. congruence. }
  unfold activeCount, completedCount, pendingCount. split.
  - induction records as [|r records IH]; [reflexivity|]. cbn [List.filter].
    destruct (status_is "active" r) eqn:Ea, (status_is "completed" r) eqn:Ec,
             (status_is "pending" r) eqn:Ep; cbn [length]; try lia; exfalso.
    + now apply (Hexcl r "active" "completed").
    + now apply (Hexcl r "active" "completed").
    + now apply (Hexcl r "active" "pending").
    + now apply (Hexcl r "completed" "pending").
  - induction 1 as [|r records Hr Hall IH]; [reflexivity|]. cbn [List.filter].
    assert (exists a c p,
              status_is "active" r = a /\ status_is "completed" r = c /\
              status_is "pending" r = p /\
              (if a then 1 else 0) + (if c then 1 else 0) + (if p then 1 else 0) = 1)%nat
      as (a & c & p & -> & -> & -> & Hone).
    { unfold status_is. destruct Hr as [-> | [-> | ->]].
      - exists false, false, true. repeat split; reflexivity.
      - exists true, false, false. repeat split; reflexivity.
      - exists false, true, false. repeat split; reflexivity. }
    destruct a, c, p; cbn [length] in *; lia.
Qed.

Lemma starts_with_empty (s : string) : starts_with s EmptyString = true.
Proof. now destruct s. Qed.

Lemma includes_empty (s : string) : includes s EmptyString = true.
Proof. destruct s; cbn [includes]; now rewrite starts_with_empty. Qed.

Lemma filter_with_sublist {A : Type} (p : A -> outcome bool) (l shown : list A) :
  filter_with p l = Returns shown ->
  sublist shown l /\ forall x, In x shown -> p x = Returns true.
Proof.
  revert shown. induction l as [|x l IH]; intros shown; cbn [filter_with].
  - intros [= <-]. split; [constructor | intros x []].
  - destruct (p x) as [b|] eqn:Ep; [|discriminate].
    destruct (filter_with p l) as [kept|]; [|discriminate].
    destruct (IH kept eq_refl) as [Hsub Hall]. intros [= <-]. destruct b.
    + split; [now constructor|]. intros y [<- | Hy]; [exact Ep | now apply Hall].
    + split; [now constructor | exact Hall].
Qed.

(** X9.  The search shows records of the list, in the order of the list;
    with a category selected, every record shown has that category; every
    record shown contains the search term, letter case apart, in its id, its
    category or its owner; and the empty term with "all" shows every record
    whose id is a string. *)
Theorem filteredRecords_shows :
  (forall searchTerm filterCategory records shown,
      filteredRecords searchTerm filterCategory records = Returns shown ->
      sublist shown records /\
      (filterCategory <> "all" ->
       forall r, In r shown -> TrainingRecord.category r = Some (JStr filterCategory)) /\
      (forall r, In r shown ->
         exists text,
           (TrainingRecord.id r = JStr text \/ TrainingRecord.category r = Some (JStr text) \/
            TrainingRecord.owner r = Some (JStr text)) /\
           includes (toLowerCase text) (toLowerCase searchTerm) = true)) /\
  (forall records,
      Forall (fun r => exists i, TrainingRecord.id r = JStr i) records ->
      filteredRecords "" "all" records = Returns records).
Proof.
  split.
  - intros searchTerm filterCategory records shown Hf.
    apply filter_with_sublist in Hf as [Hsub Hall]. split; [exact Hsub|].
    assert (forall r, In r shown ->
              (String.eqb filterCategory "all" ||
               match TrainingRecord.category r with
               | Some (JStr c) => String.eqb c filterCategory
               | _ => false
               end) = true /\
              exists text,
                (TrainingRecord.id r = JStr text \/
                 TrainingRecord.category r = Some (JStr text) \/
                 TrainingRecord.owner r = Some (JStr text)) /\
                includes (toLowerCase text) (toLowerCase searchTerm) = true) as Hone.
    { intros r Hin. specialize (Hall r Hin). revert Hall. unfold matches, lower_of.
      destruct (TrainingRecord.id r) as [|?|?|i|?|?] eqn:Ei; try discriminate.
      destruct (includes (toLowerCase i) (toLowerCase searchTerm)) eqn:E1.
      { intros [= ->]. split; [reflexivity|]. exists i. split; [now left | exact E1]. }
      destruct (TrainingRecord.category r) as [[|?|?|c|?|?]|] eqn:Ec; try discriminate.
      destruct (includes (toLowerCase c) (toLowerCase searchTerm)) eqn:E2.
      { intros [= ->]. split; [reflexivity|]. exists c. split; [now right; left | exact E2]. }
      destruct (TrainingRecord.owner r) as [[|?|?|o|?|?]|] eqn:Eo; try discriminate.
      intros [= H]. apply andb_true_iff in H as [E3 Hcat].
      split; [exact Hcat|]. exists o. split; [now right; right | exact E3]. }
    split.
    + intros Hne r Hin. destruct (Hone r Hin) as [Hcat _].
      apply orb_true_iff in Hcat as [Hcat|Hcat].
      * apply String.eqb_eq in Hcat. contradiction.
      * destruct (TrainingRecord.category r) as [[|?|?|c|?|?]|]; try discriminate.
        apply String.eqb_eq in Hcat. now subst.
    + intros r Hin. now destruct (Hone r Hin) as [_ H].
  - induction 1 as [|r records [i Hi] Hall IH]; [reflexivity|].
    unfold filteredRecords in *. cbn [filter_with]. rewrite IH.
    unfold matches, lower_of. rewrite Hi. cbn [toLowerCase].
    now rewrite includes_empty.
Qed.

Lemma load_record_object (w : World) (key : json) (r : TrainingRecord.t) (v : json) :
  load_record w key = Some r -> TrainingRecord.owner r = Some v ->
  exists fields, JSON_parse (read w (record_key key)) = Some (JObj fields).
Proof.
  unfold load_record. destruct (0 <? _)%nat; [|discriminate].
  destruct (JSON_parse _) as [[|?|?|?|?|fields]|]; try discriminate;
    intros [= <-]; cbn [TrainingRecord.owner field]; try discriminate.
  intros _. now exists fields.
Qed.

(** X10.  The detail dialog offers at most one button, and only to the
    owner of the record (the account and the owner compared letter case
    apart): "Activate Plan" on a pending record, "Mark Complete" on an active
    one, nothing on a completed one; and on a record shown as it is stored,
    the button that is offered moves the stored record one step forward and
    changes nothing else of it. *)
Theorem dialog_moves_forward :
  (forall s r bs,
      offered s r = Returns bs ->
      (bs = [] \/
       (bs = [ActivatePlan] /\ TrainingRecord.status r = JStr "pending") \/
       (bs = [MarkComplete] /\ TrainingRecord.status r = JStr "active")) /\
      (bs <> [] ->
       exists a, TrainingRecord.owner r = Some (JStr a) /\
                 toLowerCase a = toLowerCase (account s))) /\
  (forall s r bs b app,
      offered s r = Returns bs -> In b bs ->
      load_record (chain app) (TrainingRecord.id r) = Some r ->
      provider s = true -> signer s = true ->
      mined (chain app) (sent (chain app)) = true ->
      load_record (chain (click s b r app)) (TrainingRecord.id r)
      = Some (with_status r (JStr (leads_to b)))).
Proof.
  assert (forall s r bs,
             offered s r = Returns bs ->
             exists a own,
               TrainingRecord.owner r = Some (JStr a) /\
               String.eqb (toLowerCase (account s)) (toLowerCase a) = own /\
               bs = footer_buttons own r) as Hoffer.
  { intros s r bs. unfold offered, isOwner, lower_of.
    destruct (TrainingRecord.owner r) as [[|?|?|a|?|?]|]; try discriminate.
    intros [= <-]. now exists a, (String.eqb (toLowerCase (account s)) (toLowerCase a)). }
  assert (forall st r, status_is st r = true -> TrainingRecord.status r = JStr st) as Hst.
  { intros st r. unfold status_is.
    destruct (TrainingRecord.status r) as [|?|?|x|?|?]; try discriminate.
    intros H. apply String.eqb_eq in H. now subst. }
  assert (forall own r,
             footer_buttons own r = [] \/
             (own = true /\ footer_buttons own r = [ActivatePlan] /\
              TrainingRecord.status r = JStr "pending") \/
             (own = true /\ footer_buttons own r = [MarkComplete] /\
              TrainingRecord.status r = JStr "active")) as Hfooter.
  { intros own r. unfold footer_buttons. destruct own; cbn [andb]; [|now left].
    destruct (status_is "pending" r) eqn:Ep, (status_is "active" r) eqn:Ea; cbn [app].
    - apply Hst in Ep, Ea. congruence.
    - right. left. auto.
    - right. right. auto.
    - now left. }
  split.
  - intros s r bs Hoff. destruct (Hoffer s r bs Hoff) as (a & own & Hown & Heq & ->).
    destruct (Hfooter own r) as [H|[(Ho & H & Hs)|(Ho & H & Hs)]]; rewrite H.
    + split; [now left | congruence].
    + split; [right; left; auto|]. intros _. exists a. split; [exact Hown|].
      rewrite Ho in Heq. apply String.eqb_eq in Heq. congruence.
    + split; [right; right; auto|]. intros _. exists a. split; [exact Hown|].
      rewrite Ho in Heq. apply String.eqb_eq in Heq. congruence.
  - intros s r bs b app Hoff Hin Hload Hp Hs Hm.
    destruct (Hoffer s r bs Hoff) as (a & own & Hown & _ & ->).
    destruct (load_record_object _ _ _ _ Hload Hown) as [fields Hparse].
    destruct b; cbn [click leads_to]; unfold activateTraining, completeTraining;
      now apply (transition_rewrites s _ _ (TrainingRecord.id r) app fields).
Qed.

(* ===================================================================== *)
(** * Further properties of the contract                                   *)
(* ===================================================================== *)

Lemma generatePlan_done (requestId resultId m a p f : Z) (more : list Z) (s : State) :
  requestToResultId s !! requestId = Some resultId -> resultId <> 0 ->
  forallb is_uint32 (m :: a :: p :: f :: more) = true ->
  m <= 100 -> a <= 100 -> p <= 100 -> f <= 100 ->
  trainingPlanCount s < uint256_max ->
  Contract.generatePlan true requestId (m :: a :: p :: f :: more) s
  = Done {|
      testResultCount := testResultCount s;
      trainingPlanCount := trainingPlanCount s + 1;
      trainingPlans :=
        <[trainingPlanCount s + 1 :=
            {| planId := trainingPlanCount s + 1;
               encryptedMemoryExercises := AsEuint32 (100 - m);
               encryptedAttentionExercises := AsEuint32 (100 - a);
               encryptedProcessingExercises := AsEuint32 (100 - p);
               encryptedFlexibilityExercises := AsEuint32 (100 - f) |}]>
          (trainingPlans s);
      recommendations :=
        <[resultId :=
            {| memoryTraining := 100 - m; attentionTraining := 100 - a;
               processingTraining := 100 - p; flexibilityTraining := 100 - f;
               isGenerated := true |}]>
          (recommendations s);
      requestToResultId := requestToResultId s |}.
Proof.
  intros Hreq Hne Hu Hm Ha Hp Hf Hcount.
  unfold Contract.generatePlan. rewrite Hreq. change (default 0 (Some resultId)) with resultId.
  rewrite (proj2 (Z.eqb_neq resultId 0) Hne). cbn [negb]. rewrite Hu. cbn [negb].
  cbn [lookup list_lookup].
  rewrite !intensity_done by assumption.
  unfold checked_add.
  now rewrite (proj2 (Z.leb_le (trainingPlanCount s + 1) uint256_max)) by lia.
Qed.

Lemma generatePlan_done_inv (signed : bool) (requestId : Z) (cleartexts : list Z)
    (s s' : State) :
  Contract.generatePlan signed requestId cleartexts s = Done s' ->
  exists resultId m a p f more,
    requestToResultId s !! requestId = Some resultId /\ resultId <> 0 /\
    signed = true /\ cleartexts = m :: a :: p :: f :: more /\
    forallb is_uint32 cleartexts = true /\
    m <= 100 /\ a <= 100 /\ p <= 100 /\ f <= 100 /\
    trainingPlanCount s < uint256_max.
Proof.
  unfold Contract.generatePlan.
  destruct (requestToResultId s !! requestId) as [resultId|] eqn:Hreq; [|discriminate].
  change (default 0 (Some resultId)) with resultId.
  destruct (resultId =? 0) eqn:Hz; [discriminate|]. apply Z.eqb_neq in Hz.
  destruct signed; cbn [negb]; [|discriminate].
  destruct (forallb is_uint32 cleartexts) eqn:Hu; cbn [negb]; [|discriminate].
  destruct cleartexts as [|m [|a [|p [|f more]]]]; try discriminate.
  cbn [lookup list_lookup].
  unfold calculateTrainingIntensity, checked_sub, checked_add.
  destruct (m <=? 100) eqn:Hm; [|discriminate].
  destruct (a <=? 100) eqn:Ha; [|discriminate].
  destruct (p <=? 100) eqn:Hp; [|discriminate].
  destruct (f <=? 100) eqn:Hf; [|discriminate].
  destruct (trainingPlanCount s + 1 <=? uint256_max) eqn:Hc; [|discriminate].
  intros _. exists resultId, m, a, p, f, more.
  apply Z.leb_le in Hm, Ha, Hp, Hf, Hc. repeat split; auto. lia.
Qed.

Lemma is_uint32_nonneg (x : Z) : is_uint32 x = true -> 0 <= x.
Proof. unfold is_uint32. intros H. apply andb_true_iff in H as [H _]. now apply Z.leb_le. Qed.


(** X12.  From submission to plan: after [submitTestResults], a
    [requestTrainingPlan] for the new id and the [generatePlan] callback
    with four scores up to 100, [getRecommendation] returns the four
    intensities [100 - score] as generated, and every further
    [requestTrainingPlan] for that id reverts with "Plan already exists". *)
Theorem plan_lifecycle (now : Z) (m a p f : euint32) (reqId sm sa sp sf : Z) (l : Ledger.t) :
  0 <= testResultCount (Ledger.core l) < uint256_max ->
  trainingPlanCount (Ledger.core l) < uint256_max ->
  forallb is_uint32 [sm; sa; sp; sf] = true ->
  sm <= 100 -> sa <= 100 -> sp <= 100 -> sf <= 100 ->
  let newId := testResultCount (Ledger.core l) + 1 in
  exists l1 l2 l3,
    Ledger.submitTestResults now m a p f l = Done l1 /\
    Ledger.requestTrainingPlan reqId newId l1 = Done l2 /\
    Ledger.generatePlan true reqId [sm; sa; sp; sf] l2 = Done l3 /\
    Ledger.getRecommendation newId l3 = (100 - sm, 100 - sa, 100 - sp, 100 - sf, true) /\
    (forall reqId', Ledger.requestTrainingPlan reqId' newId l3 = Revert "Plan already exists").
Proof.
  intros Hcount Hplans Hu Hm Ha Hp Hf newId.
  unfold Ledger.submitTestResults, checked_add.
  rewrite (proj2 (Z.leb_le (testResultCount (Ledger.core l) + 1) uint256_max)) by lia.
  fold newId. eexists. eexists. eexists. split; [reflexivity|].
  unfold Ledger.requestTrainingPlan at 1. unfold Ledger.recommendation_of at 1.
  cbn [Ledger.core recommendations]. rewrite lookup_insert_eq.
  cbn [default Ledger.no_recommendation isGenerated]. split; [reflexivity|].
  unfold Ledger.generatePlan at 1.
  cbn [Ledger.with_core Ledger.core testResultCount trainingPlanCount trainingPlans
       recommendations requestToResultId Ledger.testResults Ledger.encryptedUserProgress
       Ledger.userList].
  rewrite (generatePlan_done reqId newId sm sa sp sf []);
    try assumption; [| apply lookup_insert_eq | unfold newId; lia].
  split; [reflexivity|].
  unfold Ledger.getRecommendation, Ledger.requestTrainingPlan, Ledger.recommendation_of.
  cbn [Ledger.with_core Ledger.core recommendations].
  rewrite lookup_insert_eq. cbn. split; reflexivity.
Qed.

(** X14.  Whenever [generatePlan] completes, the request was registered for
    a result other than 0 and the signatures were accepted; the
    recommendation stored for that result reads as generated with four
    intensities between 0 and 100; the plan counter has grown by one; and
    every other recommendation, the result counter, the registered requests,
    the test results and the progress of the users are as before. *)
Theorem generatePlan_stores_in_range (signed : bool) (requestId : Z) (cleartexts : list Z)
    (l l' : Ledger.t) :
  Ledger.generatePlan signed requestId cleartexts l = Done l' ->
  exists resultId,
    requestToResultId (Ledger.core l) !! requestId = Some resultId /\
    resultId <> 0 /\ signed = true /\
    (let r := Ledger.recommendation_of resultId l' in
     0 <= memoryTraining r <= 100 /\ 0 <= attentionTraining r <= 100 /\
     0 <= processingTraining r <= 100 /\ 0 <= flexibilityTraining r <= 100 /\
     isGenerated r = true) /\
    (forall id, id <> resultId ->
       Ledger.recommendation_of id l' = Ledger.recommendation_of id l) /\
    trainingPlanCount (Ledger.core l') = trainingPlanCount (Ledger.core l) + 1 /\
    testResultCount (Ledger.core l') = testResultCount (Ledger.core l) /\
    requestToResultId (Ledger.core l') = requestToResultId (Ledger.core l) /\
    Ledger.testResults l' = Ledger.testResults l /\
    Ledger.encryptedUserProgress l' = Ledger.encryptedUserProgress l /\
    Ledger.userList l' = Ledger.userList l.
Proof.
  unfold Ledger.generatePlan.
  destruct (Contract.generatePlan signed requestId cleartexts (Ledger.core l))
    as [c| |] eqn:E; try discriminate.
  intros [= <-].
  destruct (generatePlan_done_inv _ _ _ _ _ E)
    as (resultId & m & a & p & f & more & Hreq & Hne & -> & -> & Hu & Hm & Ha & Hp & Hf & Hc).
  rewrite (generatePlan_done requestId resultId m a p f more) in E by assumption.
  injection E as <-.
  assert (0 <= m /\ 0 <= a /\ 0 <= p /\ 0 <= f) as (Hm0 & Ha0 & Hp0 & Hf0).
  { cbn [forallb] in Hu. repeat (apply andb_true_iff in Hu as [? Hu]).
    repeat split; now apply is_uint32_nonneg. }
  exists resultId. split; [exact Hreq|]. split; [exact Hne|]. split; [reflexivity|].
  unfold Ledger.recommendation_of.
  cbn [Ledger.with_core Ledger.core Ledger.testResults Ledger.encryptedUserProgress
       Ledger.userList recommendations trainingPlanCount testResultCount requestToResultId].
  rewrite lookup_insert_eq.
  cbn [from_option id memoryTraining attentionTraining processingTraining
       flexibilityTraining isGenerated].
  split; [repeat split; lia|]. split; [|repeat split; reflexivity].
  intros id Hid. now rewrite lookup_insert_ne by congruence.
Qed.

(** X15.  A request is not used up: after [generatePlan] has completed for
    a request, a further callback for the same request with other scores up
    to 100 completes too, replaces the recommendation of the result and
    makes another plan, although [requestTrainingPlan] refuses the result
    as one that has its plan. *)
Theorem generatePlan_replay (signed : bool) (requestId : Z) (cleartexts : list Z)
    (m a p f : Z) (l l' : Ledger.t) :
  Ledger.generatePlan signed requestId cleartexts l = Done l' ->
  trainingPlanCount (Ledger.core l') < uint256_max ->
  forallb is_uint32 [m; a; p; f] = true ->
  m <= 100 -> a <= 100 -> p <= 100 -> f <= 100 ->
  exists resultId l'',
    requestToResultId (Ledger.core l) !! requestId = Some resultId /\
    Ledger.requestTrainingPlan requestId resultId l' = Revert "Plan already exists" /\
    Ledger.generatePlan true requestId [m; a; p; f] l' = Done l'' /\
    Ledger.getRecommendation resultId l'' = (100 - m, 100 - a, 100 - p, 100 - f, true) /\
    trainingPlanCount (Ledger.core l'') = trainingPlanCount (Ledger.core l) + 2.
Proof.
  unfold Ledger.generatePlan at 1.
  destruct (Contract.generatePlan signed requestId cleartexts (Ledger.core l))
    as [c| |] eqn:E; try discriminate.
  intros [= <-] Hcount Hu Hm Ha Hp Hf.
  destruct (generatePlan_done_inv _ _ _ _ _ E)
    as (resultId & m0 & a0 & p0 & f0 & more & Hreq & Hne & -> & -> & Hu0 & Hm0 & Ha0 & Hp0
        & Hf0 & Hc).
  rewrite (generatePlan_done requestId resultId m0 a0 p0 f0 more) in E by assumption.
  injection E as <-.
  cbn [Ledger.with_core Ledger.core trainingPlanCount] in Hcount.
  exists resultId. eexists. split; [exact Hreq|].
  split.
  { unfold Ledger.requestTrainingPlan, Ledger.recommendation_of.
    cbn [Ledger.with_core Ledger.core recommendations]. now rewrite lookup_insert_eq. }
  unfold Ledger.generatePlan.
  cbn [Ledger.with_core Ledger.core Ledger.testResults Ledger.encryptedUserProgress
       Ledger.userList].
  rewrite (generatePlan_done requestId resultId m a p f []); try assumption.
  split; [reflexivity|].
  unfold Ledger.getRecommendation, Ledger.recommendation_of.
  cbn [Ledger.with_core Ledger.core recommendations trainingPlanCount].
  rewrite lookup_insert_eq. cbn. split; [reflexivity | lia].
Qed.

(** X16.  [requestTrainingPlan] asks only that the result has no generated
    plan: it registers a request for an id under which nothing was
    submitted as well; and a request registered for the id 0 is one that
    [generatePlan] refuses as "Invalid request" whatever it is called with. *)
Theorem request_without_result (reqId resultId : Z) (l : Ledger.t) :
  isGenerated (Ledger.recommendation_of resultId l) = false ->
  exists l',
    Ledger.requestTrainingPlan reqId resultId l = Done l' /\
    requestToResultId (Ledger.core l') !! reqId = Some resultId /\
    Ledger.testResults l' = Ledger.testResults l /\
    recommendations (Ledger.core l') = recommendations (Ledger.core l) /\
    (resultId = 0 ->
     forall signed cleartexts,
       Ledger.generatePlan signed reqId cleartexts l' = Revert "Invalid request").
Proof.
  intros Hgen. unfold Ledger.requestTrainingPlan. rewrite Hgen.
  eexists. split; [reflexivity|].
  cbn [Ledger.with_core Ledger.core Ledger.testResults requestToResultId recommendations].
  split; [apply lookup_insert_eq|]. split; [reflexivity|]. split; [reflexivity|].
  intros -> signed cleartexts. unfold Ledger.generatePlan, Contract.generatePlan.
  cbn [Ledger.with_core Ledger.core requestToResultId].
  now rewrite lookup_insert_eq.
Qed.

(** X17.  [updateProgress] keeps the list of users free of repetitions:
    when every listed user holds an initialized progress and nobody is
    listed twice, this is still so after a user has stored an initialized
    progress; a user who had no progress is on the list afterwards; and the
    call touches neither the results nor the plans. *)
Theorem updateProgress_lists_once (isInitialized : euint32 -> bool) (sender planId : Z)
    (encryptedProgress : euint32) (l : Ledger.t) :
  Ledger.users_listed_once isInitialized l ->
  isInitialized encryptedProgress = true ->
  let l' := Ledger.updateProgress isInitialized sender planId encryptedProgress l in
  Ledger.users_listed_once isInitialized l' /\
  Ledger.encryptedUserProgress l' !! sender = Some encryptedProgress /\
  (isInitialized (Handle 0) = false ->
   Ledger.encryptedUserProgress l !! sender = None -> In sender (Ledger.userList l')) /\
  Ledger.core l' = Ledger.core l /\ Ledger.testResults l' = Ledger.testResults l.
Proof.
  intros [Hnodup Hlisted] Hinit l'. unfold l', Ledger.updateProgress.
  cbn [Ledger.userList Ledger.encryptedUserProgress Ledger.core Ledger.testResults].
  split; [|split; [apply lookup_insert_eq|split; [|split; reflexivity]]].
  - assert (forall u, In u (Ledger.userList l) ->
              exists p, <[sender := encryptedProgress]> (Ledger.encryptedUserProgress l) !! u
                        = Some p /\ isInitialized p = true) as Hold.
    { intros u Hu. destruct (decide (u = sender)) as [->|Hne].
      - exists encryptedProgress. split; [apply lookup_insert_eq | exact Hinit].
      - rewrite lookup_insert_ne by congruence. now apply Hlisted. }
    destruct (isInitialized (default (Handle 0) (Ledger.encryptedUserProgress l !! sender)))
      eqn:Ecur.
    + split; [exact Hnodup | exact Hold].
    + split.
      * apply NoDup_app. split; [exact Hnodup|]. split; [|apply NoDup_singleton].
        intros u Hu Hs. apply list_elem_of_singleton in Hs. subst u.
        apply list_elem_of_In in Hu. destruct (Hlisted sender Hu) as (p0 & Hp0 & Hi0).
        rewrite Hp0 in Ecur. cbn [from_option id] in Ecur. congruence.
      * intros u Hu. apply in_app_or in Hu as [Hu|[<-|[]]]; [now apply Hold|].
        exists encryptedProgress. split; [apply lookup_insert_eq | exact Hinit].
  - intros Hzero Hnone. rewrite Hnone. cbn [from_option id]. rewrite Hzero.
    apply in_or_app. right. now left.
Qed.

(* ===================================================================== *)
(** * The further properties on sample data                                *)
(* ===================================================================== *)

Lemma listed_are_indexed_witness :
  (length (records (loadRecords demo_session demo_listing)) <= 4)%nat.
Proof.
  assert (iterate (parse_keys (read (chain demo_listing) index_key))
          = Some [JStr "a"; JStr "b"; JStr "c"; JStr "d"]) as Hks
    by (vm_compute; reflexivity).
  exact (proj2 (listed_are_indexed demo_session demo_listing _ eq_refl eq_refl Hks)).
Defined.

Lemma rejected_index_write_leaves_orphan_witness :
  read (chain (submitRecord demo_session (demo_form "85")
                 (demo_entropy 1700000000123 "k3j9x1a") demo_flaky_app))
    "training_1700000000123-k3j9x1a"
  = stringify (new_record_data demo_session (demo_form "85")
                 (demo_entropy 1700000000123 "k3j9x1a")) /\
  read (chain (submitRecord demo_session (demo_form "85")
                 (demo_entropy 1700000000123 "k3j9x1a") demo_flaky_app))
    index_key
  = EmptyString /\
  records (submitRecord demo_session (demo_form "85")
             (demo_entropy 1700000000123 "k3j9x1a") demo_flaky_app) = [].
Proof.
  destruct (rejected_index_write_leaves_orphan demo_session (demo_form "85")
              (demo_entropy 1700000000123 "k3j9x1a") demo_flaky_app
              eq_refl eq_refl eq_refl eq_refl) as (Hrec & Hidx & Hrecs & _).
  split; [exact Hrec|]. split; [exact Hidx | exact Hrecs].
Defined.

Lemma broken_index_blocks_witness :
  read (chain (submit_all demo_jobs demo_null_index)) index_key = "null".
Proof.
  assert (forall xs, parse_keys (read (chain demo_null_index) index_key) <> JArr xs) as Hbad
    by (intros xs; vm_compute; discriminate).
  exact (proj1 (broken_index_blocks demo_null_index Hbad demo_jobs)).
Defined.

Lemma first_character (s : string) :
  s <> EmptyString -> exists c rest, s = String c rest.
Proof. destruct s as [|c rest]; [contradiction | now exists c, rest]. Qed.

Lemma indexed_stay_stored_witness :
  exists c rest,
    read (chain (perform_all
                   [Activate demo_session (JStr "1700000000123-k3j9x1a");
                    Complete demo_session (JStr "no such record");
                    Refresh demo_session]
                   (submit_all demo_jobs demo_app)))
      "training_1700000000123-k3j9x1a"
    = String c rest.
Proof.
  assert (indexed_are_stored (chain (submit_all demo_jobs demo_app))) as Hinv.
  { intros key Hin. vm_compute in Hin.
    destruct Hin as [<-|[<-|[]]]; vm_compute; discriminate. }
  assert (In (JStr "1700000000123-k3j9x1a")
            (index_ids (chain (perform_all
                                 [Activate demo_session (JStr "1700000000123-k3j9x1a");
                                  Complete demo_session (JStr "no such record");
                                  Refresh demo_session]
                                 (submit_all demo_jobs demo_app))))) as Hin
    by (vm_compute; left; reflexivity).
  exact (first_character _ (indexed_stay_stored _ _ Hinv _ Hin)).
Defined.

Lemma last_transition_wins_witness :
  storage (chain (completeTraining demo_session (JStr "d")
                    (activateTraining demo_session (JStr "d") demo_listing)))
  = <["training_d" :=
        stringify (JObj [("timestamp", JNum 9); ("status", JStr "completed")])]>
      (storage (chain demo_listing)).
Proof.
  assert (JSON_parse (read (chain demo_listing) (record_key (JStr "d")))
          = Some (JObj [("timestamp", JNum 9); ("status", JStr "active")])) as Hparse
    by (vm_compute; reflexivity).
  exact (proj1 (last_transition_wins demo_session (JStr "d") demo_listing _
                  eq_refl eq_refl eq_refl eq_refl Hparse)).
Defined.

Lemma dialog_moves_forward_witness :
  offered demo_session demo_record = Returns [ActivatePlan] /\
  load_record (chain (click demo_session ActivatePlan demo_record demo_submitted))
    (TrainingRecord.id demo_record)
  = Some (with_status demo_record (JStr "active")).
Proof.
  split; [vm_compute; reflexivity|].
  apply (proj2 dialog_moves_forward demo_session demo_record [ActivatePlan] ActivatePlan
           demo_submitted).
  - vm_compute. reflexivity.
  - now left.
  - vm_compute. reflexivity.
  - reflexivity.
  - reflexivity.
  - vm_compute. reflexivity.
Defined.


Lemma plan_lifecycle_witness :
  exists l1 l2 l3,
    Ledger.submitTestResults 1700000000 (Handle 11) (Handle 12) (Handle 13) (Handle 14)
      demo_ledger = Done l1 /\
    Ledger.requestTrainingPlan 7 1 l1 = Done l2 /\
    Ledger.generatePlan true 7 [10; 20; 30; 40] l2 = Done l3 /\
    Ledger.getRecommendation 1 l3 = (90, 80, 70, 60, true) /\
    Ledger.requestTrainingPlan 8 1 l3 = Revert "Plan already exists".
Proof.
  assert (0 <= testResultCount (Ledger.core demo_ledger) < uint256_max) as Hresults
    by (split; [vm_compute; discriminate | vm_compute; reflexivity]).
  assert (trainingPlanCount (Ledger.core demo_ledger) < uint256_max) as Hplans
    by (vm_compute; reflexivity).
  destruct (plan_lifecycle 1700000000 (Handle 11) (Handle 12) (Handle 13) (Handle 14)
              7 10 20 30 40 demo_ledger Hresults Hplans eq_refl
              ltac:(vm_compute; discriminate) ltac:(vm_compute; discriminate)
              ltac:(vm_compute; discriminate) ltac:(vm_compute; discriminate))
    as (l1 & l2 & l3 & H1 & H2 & H3 & H4 & H5).
  exists l1, l2, l3. split; [exact H1|]. split; [exact H2|]. split; [exact H3|].
  split; [exact H4 | exact (H5 8)].
Defined.

Lemma generatePlan_stores_in_range_witness :
  exists l' resultId,
    Ledger.generatePlan true 7 [10; 20; 30; 40] demo_requested = Done l' /\
    requestToResultId (Ledger.core demo_requested) !! 7 = Some resultId /\
    isGenerated (Ledger.recommendation_of resultId l') = true /\
    trainingPlanCount (Ledger.core l') = 1.
Proof.
  destruct (Ledger.generatePlan true 7 [10; 20; 30; 40] demo_requested) as [l'| |] eqn:E;
    [|exfalso; vm_compute in E; discriminate ..].
  destruct (generatePlan_stores_in_range _ _ _ _ _ E)
    as (resultId & Hreq & _ & _ & (_ & _ & _ & _ & Hgen) & _ & Hcount & _).
  exists l', resultId. split; [reflexivity|]. split; [exact Hreq|].
  split; [exact Hgen | exact Hcount].
Defined.

Lemma generatePlan_replay_witness :
  exists l' resultId l'',
    Ledger.generatePlan true 7 [10; 20; 30; 40] demo_requested = Done l' /\
    Ledger.generatePlan true 7 [100; 0; 50; 1] l' = Done l'' /\
    Ledger.getRecommendation resultId l'' = (0, 100, 50, 99, true) /\
    trainingPlanCount (Ledger.core l'') = 2.
Proof.
  destruct (Ledger.generatePlan true 7 [10; 20; 30; 40] demo_requested) as [l'| |] eqn:E;
    [|exfalso; vm_compute in E; discriminate ..].
  assert (trainingPlanCount (Ledger.core l') < uint256_max) as Hcount.
  { vm_compute in E. injection E as <-. vm_compute. reflexivity. }
  destruct (generatePlan_replay true 7 [10; 20; 30; 40] 100 0 50 1 demo_requested l' E
              Hcount eq_refl
              ltac:(vm_compute; discriminate) ltac:(vm_compute; discriminate)
              ltac:(vm_compute; discriminate) ltac:(vm_compute; discriminate))
    as (resultId & l'' & _ & _ & Hgen & Hrec & Hplans).
  exists l', resultId, l''. split; [reflexivity|]. split; [exact Hgen|].
  split; [exact Hrec | exact Hplans].
Defined.

Lemma request_without_result_witness :
  exists l',
    Ledger.requestTrainingPlan 9 0 demo_ledger = Done l' /\
    Ledger.generatePlan true 9 [10; 20; 30; 40] l' = Revert "Invalid request".
Proof.
  destruct (request_without_result 9 0 demo_ledger eq_refl) as (l' & Hreq & _ & _ & _ & Hnever).
  exists l'. split; [exact Hreq | exact (Hnever eq_refl true [10; 20; 30; 40])].
Defined.

Lemma updateProgress_lists_once_witness :
  In 42 (Ledger.userList (Ledger.updateProgress demo_isInitialized 42 1 (Handle 5) demo_ledger)) /\
  Ledger.encryptedUserProgress
    (Ledger.updateProgress demo_isInitialized 42 1 (Handle 5) demo_ledger) !! 42
  = Some (Handle 5).
Proof.
  assert (Ledger.users_listed_once demo_isInitialized demo_ledger) as Hinv
    by (split; [apply NoDup_nil_2 | intros u []]).
  destruct (updateProgress_lists_once demo_isInitialized 42 1 (Handle 5) demo_ledger
              Hinv eq_refl) as (_ & Hstored & Hlisted & _).
  split; [exact (Hlisted eq_refl eq_refl) | exact Hstored].
Defined.
